(** * Likes and comments of the photo sharing backend

    A shallow embedding of [backend/shared/interaction_service.py], of the
    parts of [backend/shared/models.py] it calls and of the operations of
    [backend/shared/post_service.py] that delete a post and read its owner
    and counters, over a model of the three DynamoDB tables (users, posts,
    interactions).

    Conventions.
    - A Python [str] is a [string]; a character is a code point below 256.
    - A DynamoDB number is a [Z].
    - Python exceptions are values of [exn]; a method is a function from a
      [World] to an outcome and the [World] it leaves behind (an exception
      does not undo the writes made before it).
    - [datetime.utcnow().isoformat()] is read each time a model object is
      built; only the reading taken for a new [Interaction] is ever stored,
      and it is passed to the operation as its argument [now]. *)

From Stdlib Require Import String Ascii ZArith List Bool Lia Permutation Sorted.
From stdpp Require Import base option list gmap strings fin_maps.

Local Open Scope string_scope.
Local Open Scope Z_scope.

(** ** Strings as Python uses them *)

(** [str.isspace] of one character, on the code points below 256. *)
Definition isspace (c : ascii) : bool :=
  let n := N_of_ascii c in
  ((9 <=? n) && (n <=? 13) || (28 <=? n) && (n <=? 32)
   || (n =? 133) || (n =? 160))%N.

Fixpoint lstrip (s : string) : string :=
  match s with
  | EmptyString => EmptyString
  | String c s' => if isspace c then lstrip s' else s
  end.

(** [rstrip]: a character is dropped when it is a space and everything
    after it has been dropped too. *)
Fixpoint rstrip (s : string) : string :=
  match s with
  | EmptyString => EmptyString
  | String c s' =>
      match rstrip s' with
      | EmptyString => if isspace c then EmptyString else String c EmptyString
      | r => String c r
      end
  end.

(** [str.strip()] with no argument. *)
Definition strip (s : string) : string := rstrip (lstrip s).

(** [len(s)] *)
Definition len (s : string) : Z := Z.of_nat (String.length s).

(** [str.lower()] of one character (ASCII and Latin-1 capitals). *)
Definition lower_char (c : ascii) : ascii :=
  let n := N_of_ascii c in
  if ((65 <=? n) && (n <=? 90)
      || (192 <=? n) && (n <=? 222) && negb (n =? 215))%N
  then ascii_of_N (n + 32) else c.

Fixpoint lower (s : string) : string :=
  match s with
  | EmptyString => EmptyString
  | String c s' => String (lower_char c) (lower s')
  end.

(** [pat in s] *)
Fixpoint contains (pat s : string) : bool :=
  String.prefix pat s ||
  match s with
  | EmptyString => false
  | String _ s' => contains pat s'
  end.

(** A stable sort by a string key. Python's [list.sort(key=...)] is stable
    and DynamoDB returns the items of a partition by ascending sort key;
    both orders compare strings code point by code point. *)
Section SortBy.
Context {A : Type} (key : A -> string).

Fixpoint insert_by (x : A) (l : list A) : list A :=
  match l with
  | [] => [x]
  | y :: l' =>
      if String.leb (key x) (key y) then x :: l else y :: insert_by x l'
  end.

Fixpoint sort_by (l : list A) : list A :=
  match l with
  | [] => []
  | x :: l' => insert_by x (sort_by l')
  end.
End SortBy.

(** ** Exceptions *)

(** The messages of the service's own exceptions. *)
Inductive message : Type :=
  | PostNotFound        (* 投稿が見つかりません *)
  | UserNotFound        (* ユーザーが見つかりません *)
  | CommentNotFound     (* コメントが見つかりません *)
  | CommentRequired     (* コメント内容が必要です *)
  | CommentTooLong      (* コメントは500文字以内で入力してください *)
  | NotOwnComment.      (* 自分のコメントのみ削除できます *)

Inductive exn : Type :=
  | NotFoundError (m : message)
  | ValidationError (m : message)
  | DatabaseError (operation_name : string)
  | BotoError (text : string).   (* raised by boto3; [str(e) = text] *)

(** ['dynamodb' in str(e).lower() or 'boto' in str(e).lower()]. The
    service's own messages hold no Latin letter; the text of a
    [DatabaseError] is a fixed Japanese prefix followed by the operation
    name. *)
Definition mentions_store (e : exn) : bool :=
  match e with
  | NotFoundError _ | ValidationError _ => false
  | DatabaseError op =>
      contains "dynamodb" (lower op) || contains "boto" (lower op)
  | BotoError text =>
      contains "dynamodb" (lower text) || contains "boto" (lower text)
  end.

(** ** The tables *)

(** An item of the Users table, without its key [user_id]. *)
Record UserItem : Type := {
  ui_username : string;
  ui_email : string;
  ui_password_hash : string;
  ui_created_at : string;
  ui_profile_image : option string;
  ui_bio : option string
}.

(** An item of the Posts table, without its key [post_id]. *)
Record PostItem : Type := {
  pi_user_id : string;
  pi_image_key : string;
  pi_caption : option string;
  pi_likes_count : option Z;
  pi_comments_count : option Z;
  pi_created_at : string
}.

(** An item of the Interactions table, without its key
    [(post_id, interaction_id)]. *)
Record InteractionItem : Type := {
  ii_user_id : string;
  ii_interaction_type : string;
  ii_created_at : string;
  ii_content : option string
}.

Record Tables : Type := {
  users : gmap string UserItem;
  posts : gmap string PostItem;
  interactions : gmap (string * string) InteractionItem
}.

(** The store and what it will answer: [plan] lists the outcome of the
    coming calls to the store, [Some text] for a call that raises an
    exception with that text, [None] for one that is served. Calls past
    the end of the plan are served. *)
Record World : Type := {
  tables : Tables;
  plan : list (option string)
}.

(** A store that serves every call. *)
Definition up (t : Tables) : World := {| tables := t; plan := [] |}.

(** ** Outcomes *)

Definition M (A : Type) : Type := World -> (exn + A) * World.

Definition ret {A} (a : A) : M A := fun w => (inr a, w).
Definition raise {A} (e : exn) : M A := fun w => (inl e, w).
Definition bind {A B} (m : M A) (k : A -> M B) : M B :=
  fun w => match m w with
           | (inl e, w') => (inl e, w')
           | (inr a, w') => k a w'
           end.

Notation "'do' x <- m ; k" := (bind m (fun x => k))
  (at level 10, x name, m at level 100, k at level 200).
Notation "'run' m ; k" := (bind m (fun _ => k))
  (at level 10, m at level 100, k at level 200).

(** [try: m except Exception as e: h e] *)
Definition try_except {A} (m : M A) (h : exn -> M A) : M A :=
  fun w => match m w with
           | (inl e, w') => h e w'
           | r => r
           end.

(** One call to the store. *)
Definition store_call {A} (f : Tables -> (exn + A) * Tables) : M A :=
  fun w =>
    match plan w with
    | Some text :: rest =>
        (inl (BotoError text), {| tables := tables w; plan := rest |})
    | None :: rest =>
        let (r, t) := f (tables w) in (r, {| tables := t; plan := rest |})
    | [] =>
        let (r, t) := f (tables w) in (r, {| tables := t; plan := [] |})
    end.

(** [@monitor_database_operation(operation_name, table_name)] of
    monitoring.py: counters and timings aside, an exception whose text
    names the store is replaced by a [DatabaseError]; any other is raised
    again. *)
Definition monitor_database_operation {A} (operation_name : string)
    (func : M A) : M A :=
  try_except func (fun e =>
    if mentions_store e
    then raise (DatabaseError operation_name)
    else raise e).

(** ** The calls made on a boto3 [Table] *)

Inductive table_type : Type := users_table | posts_table | interactions_table.

(** [db_connection.get_table(table_type)]: the three names used are known
    to the connection, and [table.load()] is a call to the store. *)
Definition get_table (table_type : table_type) : M unit :=
  store_call (fun t => (inr tt, t)).

(** The items stored under one [post_id], by ascending [interaction_id]. *)
Definition partition (t : Tables) (post_id : string)
  : list (string * InteractionItem) :=
  sort_by fst
    (omap (fun e : string * string * InteractionItem =>
             if decide (e.1.1 = post_id) then Some (e.1.2, e.2) else None)
          (map_to_list (interactions t))).

Module Table.

(** [table.get_item(Key={'user_id': user_id})], the item when
    ['Item' in response]. *)
Definition get_user (user_id : string) : M (option UserItem) :=
  store_call (fun t => (inr (users t !! user_id), t)).

(** [table.get_item(Key={'post_id': post_id})] *)
Definition get_post (post_id : string) : M (option PostItem) :=
  store_call (fun t => (inr (posts t !! post_id), t)).

(** [ADD likes_count :likes_delta, comments_count :comments_delta]: an
    attribute that is absent counts as 0. Each caller has just read the
    post, so the key is present when the call is made. *)
Definition add_counts (likes_delta comments_delta : Z) (it : PostItem)
  : PostItem :=
  {| pi_user_id := pi_user_id it;
     pi_image_key := pi_image_key it;
     pi_caption := pi_caption it;
     pi_likes_count := Some (default 0 (pi_likes_count it) + likes_delta);
     pi_comments_count :=
       Some (default 0 (pi_comments_count it) + comments_delta);
     pi_created_at := pi_created_at it |}.

Definition update_post_counts (post_id : string)
    (likes_delta comments_delta : Z) : M unit :=
  store_call (fun t =>
    (inr tt,
     {| users := users t;
        posts := alter (add_counts likes_delta comments_delta) post_id
                   (posts t);
        interactions := interactions t |})).

(** [table.put_item(Item=item)] on the Interactions table: an item with
    the same key is replaced. *)
Definition put_interaction (post_id interaction_id : string)
    (it : InteractionItem) : M unit :=
  store_call (fun t =>
    (inr tt,
     {| users := users t;
        posts := posts t;
        interactions := <[(post_id, interaction_id) := it]> (interactions t)
     |})).

(** [table.delete_item(Key={'post_id': .., 'interaction_id': ..})] *)
Definition delete_interaction (post_id interaction_id : string) : M unit :=
  store_call (fun t =>
    (inr tt,
     {| users := users t;
        posts := posts t;
        interactions := delete (post_id, interaction_id) (interactions t)
     |})).

(** What a Query of the Interactions table answers: the key condition
    ([post_id], and [begins_with] on the sort key when given) selects
    items in sort key order, [Limit] bounds how many of them are read,
    and the filter expression on [interaction_type] is applied to those
    that were read. *)
Definition query_items (t : Tables) (post_id : string)
    (begins_with : option string) (limit : Z) (type_filter : option string)
  : list (string * InteractionItem) :=
  let matching :=
    match begins_with with
    | Some pre =>
        List.filter (fun e => String.prefix pre e.1) (partition t post_id)
    | None => partition t post_id
    end in
  let read := take (Z.to_nat limit) matching in
  match type_filter with
  | Some ty =>
      List.filter (fun e => String.eqb (ii_interaction_type e.2) ty) read
  | None => read
  end.

(** [table.query(...)]; boto3 refuses a [Limit] below 1 before it calls
    the store. *)
Definition query (post_id : string) (begins_with : option string)
    (limit : Z) (type_filter : option string)
  : M (list (string * InteractionItem)) :=
  if limit <? 1
  then raise (BotoError "Parameter validation failed")
  else store_call (fun t =>
         (inr (query_items t post_id begins_with limit type_filter), t)).

(** [table.delete_item(Key={'post_id': post_id})] on the Posts table. *)
Definition delete_post (post_id : string) : M unit :=
  store_call (fun t =>
    (inr tt,
     {| users := users t;
        posts := delete post_id (posts t);
        interactions := interactions t |})).

End Table.

(** ** models.py *)

Module User.

Record t : Type := {
  user_id : string;
  username : string;
  email : string;
  password_hash : string;
  profile_image : option string;
  bio : option string;
  created_at : string
}.

Definition of_item (user_id : string) (item : UserItem) : t :=
  {| user_id := user_id;
     username := ui_username item;
     email := ui_email item;
     password_hash := ui_password_hash item;
     profile_image := ui_profile_image item;
     bio := ui_bio item;
     created_at := ui_created_at item |}.

Definition get_by_id (user_id : string) : M (option t) :=
  monitor_database_operation "user_get_by_id"
    (run get_table users_table;
     do response <- Table.get_user user_id;
     match response with
     | Some item => ret (Some (of_item user_id item))
     | None => ret None
     end).

End User.

Module Post.

Record t : Type := {
  post_id : string;
  user_id : string;
  image_key : string;
  caption : option string;
  likes_count : Z;
  comments_count : Z;
  created_at : string
}.

Definition of_item (post_id : string) (item : PostItem) : t :=
  {| post_id := post_id;
     user_id := pi_user_id item;
     image_key := pi_image_key item;
     caption := pi_caption item;
     likes_count := default 0 (pi_likes_count item);
     comments_count := default 0 (pi_comments_count item);
     created_at := pi_created_at item |}.

Definition get_by_id (post_id : string) : M (option t) :=
  run get_table posts_table;
  do response <- Table.get_post post_id;
  match response with
  | Some item => ret (Some (of_item post_id item))
  | None => ret None
  end.

(** Returns the object with its counts updated. *)
Definition update_counts (self : t) (likes_delta comments_delta : Z)
  : M t :=
  run get_table posts_table;
  run Table.update_post_counts (post_id self) likes_delta comments_delta;
  ret {| post_id := post_id self;
         user_id := user_id self;
         image_key := image_key self;
         caption := caption self;
         likes_count := likes_count self + likes_delta;
         comments_count := comments_count self + comments_delta;
         created_at := created_at self |}.

Definition delete (self : t) : M bool :=
  run get_table posts_table;
  run Table.delete_post (post_id self);
  ret true.

End Post.

Module Interaction.

Record t : Type := {
  post_id : string;
  user_id : string;
  interaction_type : string;
  content : option string;
  created_at : string;
  interaction_id : string
}.

(** [Interaction(post_id, user_id, interaction_type, content)], built
    when the clock reads [now]. *)
Definition new (now post_id user_id interaction_type : string)
    (content : option string) : t :=
  {| post_id := post_id;
     user_id := user_id;
     interaction_type := interaction_type;
     content := content;
     created_at := now;
     interaction_id := interaction_type +:+ "#" +:+ user_id +:+ "#" +:+ now
  |}.

(** An object read back from an item. *)
Definition of_item (post_id : string) (e : string * InteractionItem) : t :=
  {| post_id := post_id;
     user_id := ii_user_id e.2;
     interaction_type := ii_interaction_type e.2;
     content := ii_content e.2;
     created_at := ii_created_at e.2;
     interaction_id := e.1 |}.

(** [if self.content: item['content'] = self.content] *)
Definition to_item (self : t) : InteractionItem :=
  {| ii_user_id := user_id self;
     ii_interaction_type := interaction_type self;
     ii_created_at := created_at self;
     ii_content :=
       match content self with
       | Some c => if String.eqb c "" then None else Some c
       | None => None
       end |}.

Definition save (self : t) : M bool :=
  run get_table interactions_table;
  run Table.put_interaction (post_id self) (interaction_id self)
        (to_item self);
  ret true.

(** [if interaction_type:] adds the filter expression. *)
Definition get_post_interactions (post_id : string)
    (interaction_type : option string) (limit : Z) : M (list t) :=
  run get_table interactions_table;
  do items <- Table.query post_id None limit
                (match interaction_type with
                 | Some ty => if String.eqb ty "" then None else Some ty
                 | None => None
                 end);
  ret (map (of_item post_id) items).

Definition like_prefix (user_id : string) : string :=
  "like#" +:+ user_id +:+ "#".

Definition get_user_like (post_id user_id : string) : M (option t) :=
  run get_table interactions_table;
  do items <- Table.query post_id (Some (like_prefix user_id)) 1 None;
  match items with
  | item :: _ => ret (Some (of_item post_id item))
  | [] => ret None
  end.

Definition delete_like (post_id user_id : string) : M bool :=
  do like <- get_user_like post_id user_id;
  match like with
  | None => ret false
  | Some like =>
      run get_table interactions_table;
      run Table.delete_interaction post_id (interaction_id like);
      ret true
  end.

Definition delete (self : t) : M bool :=
  run get_table interactions_table;
  run Table.delete_interaction (post_id self) (interaction_id self);
  ret true.

End Interaction.

(** ** interaction_service.py *)

Inductive notice : Type :=
  | LikeRemoved       (* いいねを取り消しました *)
  | LikeAdded         (* いいねしました *)
  | CommentPosted     (* コメントを投稿しました *)
  | CommentDeleted.   (* コメントを削除しました *)

Record like_result : Type := {
  liked : bool;
  likes_count : Z;
  like_message : notice
}.

Definition toggle_like (now user_id post_id : string) : M like_result :=
  monitor_database_operation "toggle_like"
    (do post <- Post.get_by_id post_id;
     match post with
     | None => raise (NotFoundError PostNotFound)
     | Some post =>
         do existing_like <- Interaction.get_user_like post_id user_id;
         match existing_like with
         | Some _ =>
             run Interaction.delete_like post_id user_id;
             do post <- Post.update_counts post (-1) 0;
             ret {| liked := false;
                    likes_count := Post.likes_count post;
                    like_message := LikeRemoved |}
         | None =>
             let like := Interaction.new now post_id user_id "like" None in
             run Interaction.save like;
             do post <- Post.update_counts post 1 0;
             ret {| liked := true;
                    likes_count := Post.likes_count post;
                    like_message := LikeAdded |}
         end
     end).

Record comment_data : Type := {
  c_interaction_id : string;
  c_post_id : string;
  c_user_id : string;
  c_username : string;
  c_content : option string;
  c_created_at : string
}.

Record comment_result : Type := {
  comment : comment_data;
  comments_count : Z;
  comment_message : notice
}.

(** [content] is [None] when the request body holds no content. *)
Definition add_comment (now user_id post_id : string)
    (content : option string) : M comment_result :=
  monitor_database_operation "add_comment"
    (match content with
     | None => raise (ValidationError CommentRequired)
     | Some content =>
         if String.eqb content "" || String.eqb (strip content) ""
         then raise (ValidationError CommentRequired)
         else
           let trimmed_content := strip content in
           if len trimmed_content >? 500
           then raise (ValidationError CommentTooLong)
           else
             do post <- Post.get_by_id post_id;
             match post with
             | None => raise (NotFoundError PostNotFound)
             | Some post =>
                 do user <- User.get_by_id user_id;
                 match user with
                 | None => raise (NotFoundError UserNotFound)
                 | Some user =>
                     let comment :=
                       Interaction.new now post_id user_id "comment"
                         (Some trimmed_content) in
                     run Interaction.save comment;
                     do post <- Post.update_counts post 0 1;
                     ret {| comment :=
                              {| c_interaction_id :=
                                   Interaction.interaction_id comment;
                                 c_post_id := Interaction.post_id comment;
                                 c_user_id := Interaction.user_id comment;
                                 c_username := User.username user;
                                 c_content := Interaction.content comment;
                                 c_created_at :=
                                   Interaction.created_at comment |};
                            comments_count := Post.comments_count post;
                            comment_message := CommentPosted |}
                 end
             end
     end).

Record like_entry : Type := {
  l_user_id : string;
  l_username : string;
  l_profile_image : option string;
  l_created_at : string
}.

Record likes_result : Type := {
  likes : list like_entry;
  likes_shown : Z;       (* the key ['likes_count'] of the answer *)
  total_likes : Z
}.

(** The loop that looks up the user of each like; a like whose user is
    gone is left out. *)
Fixpoint likes_with_users (likes : list Interaction.t) : M (list like_entry) :=
  match likes with
  | [] => ret []
  | like :: rest =>
      do user <- User.get_by_id (Interaction.user_id like);
      do tail <- likes_with_users rest;
      ret match user with
          | Some user =>
              {| l_user_id := User.user_id user;
                 l_username := User.username user;
                 l_profile_image := User.profile_image user;
                 l_created_at := Interaction.created_at like |} :: tail
          | None => tail
          end
  end.

Definition get_post_likes (post_id : string) (limit : Z) : M likes_result :=
  do post <- Post.get_by_id post_id;
  match post with
  | None => raise (NotFoundError PostNotFound)
  | Some post =>
      do likes <- Interaction.get_post_interactions post_id (Some "like") limit;
      do likes_with_users <- likes_with_users likes;
      ret {| likes := likes_with_users;
             likes_shown := Z.of_nat (length likes_with_users);
             total_likes := Post.likes_count post |}
  end.

Record comment_entry : Type := {
  e_interaction_id : string;
  e_user_id : string;
  e_username : string;
  e_profile_image : option string;
  e_content : option string;
  e_created_at : string
}.

Record comments_result : Type := {
  comments : list comment_entry;
  comments_shown : Z;    (* the key ['comments_count'] of the answer *)
  total_comments : Z
}.

Fixpoint comments_with_users (comments : list Interaction.t)
  : M (list comment_entry) :=
  match comments with
  | [] => ret []
  | comment :: rest =>
      do user <- User.get_by_id (Interaction.user_id comment);
      do tail <- comments_with_users rest;
      ret match user with
          | Some user =>
              {| e_interaction_id := Interaction.interaction_id comment;
                 e_user_id := User.user_id user;
                 e_username := User.username user;
                 e_profile_image := User.profile_image user;
                 e_content := Interaction.content comment;
                 e_created_at := Interaction.created_at comment |} :: tail
          | None => tail
          end
  end.

Definition get_post_comments (post_id : string) (limit : Z)
  : M comments_result :=
  do post <- Post.get_by_id post_id;
  match post with
  | None => raise (NotFoundError PostNotFound)
  | Some post =>
      do comments <-
        Interaction.get_post_interactions post_id (Some "comment") limit;
      do comments_with_users <- comments_with_users comments;
      let sorted := sort_by e_created_at comments_with_users in
      ret {| comments := sorted;
             comments_shown := Z.of_nat (length sorted);
             total_comments := Post.comments_count post |}
  end.

Definition get_user_like_status (user_id post_id : string) : M bool :=
  try_except
    (do like <- Interaction.get_user_like post_id user_id;
     ret (bool_decide (is_Some like)))
    (fun _ => ret false).

Record delete_result : Type := {
  delete_message : notice;
  remaining_comments : Z   (* the key ['comments_count'] of the answer *)
}.

Definition delete_comment (user_id post_id interaction_id : string)
  : M delete_result :=
  do comments <- Interaction.get_post_interactions post_id (Some "comment") 50;
  match List.find
          (fun c => String.eqb (Interaction.interaction_id c) interaction_id)
          comments with
  | None => raise (NotFoundError CommentNotFound)
  | Some comment =>
      if negb (String.eqb (Interaction.user_id comment) user_id)
      then raise (ValidationError NotOwnComment)
      else
        run Interaction.delete comment;
        do post <- Post.get_by_id post_id;
        match post with
        | Some post =>
            do post <- Post.update_counts post 0 (-1);
            ret {| delete_message := CommentDeleted;
                   remaining_comments := Post.comments_count post |}
        | None =>
            ret {| delete_message := CommentDeleted;
                   remaining_comments := 0 |}
        end
  end.

(** ** Sample data *)

Definition alice : UserItem :=
  {| ui_username := "alice"; ui_email := "alice@example.com";
     ui_password_hash := "x"; ui_created_at := "2024-01-01T00:00:00";
     ui_profile_image := Some "alice.png"; ui_bio := None |}.

Definition bob : UserItem :=
  {| ui_username := "bob"; ui_email := "bob@example.com";
     ui_password_hash := "y"; ui_created_at := "2024-01-02T00:00:00";
     ui_profile_image := None; ui_bio := None |}.

Definition photo : PostItem :=
  {| pi_user_id := "u1"; pi_image_key := "img/1.jpg"; pi_caption := None;
     pi_likes_count := Some 0; pi_comments_count := Some 0;
     pi_created_at := "2024-01-03T00:00:00" |}.

(** Two users, one post, nothing else. *)
Definition t0 : Tables :=
  {| users := <["u1" := alice]> (<["u2" := bob]> ∅);
     posts := <["p1" := photo]> ∅;
     interactions := ∅ |}.

(** ** Tables after a write *)

(** The tables after the counters of post [p] have been moved. *)
Definition counted (likes_delta comments_delta : Z) (p : string) (t : Tables)
  : Tables :=
  {| users := users t;
     posts := alter (Table.add_counts likes_delta comments_delta) p (posts t);
     interactions := interactions t |}.

(** The tables after an item has been put under [(p, k)]. *)
Definition with_interaction (p k : string) (it : InteractionItem)
    (t : Tables) : Tables :=
  {| users := users t;
     posts := posts t;
     interactions := <[(p, k) := it]> (interactions t) |}.

(** The tables after the item under [(p, k)] has been deleted. *)
Definition without_interaction (p k : string) (t : Tables) : Tables :=
  {| users := users t;
     posts := posts t;
     interactions := delete (p, k) (interactions t) |}.

(** The items the like lookup of [user_id] can see under a post. *)
Definition likes_of (t : Tables) (post_id user_id : string)
  : list (string * InteractionItem) :=
  List.filter (fun e => String.prefix (Interaction.like_prefix user_id) e.1)
    (partition t post_id).

(** The [likes_count] a reader of the Posts table sees for a post. *)
Definition stored_likes_count (w : World) (post_id : string) : Z :=
  default 0 (posts (tables w) !! post_id ≫= pi_likes_count).

(** The [comments_count] a reader of the Posts table sees for a post. *)
Definition stored_comments_count (w : World) (post_id : string) : Z :=
  default 0 (posts (tables w) !! post_id ≫= pi_comments_count).

(** The world after [toggle_like] has been called once for each clock
    reading of [nows], in turn, by the same user on the same post. *)
Fixpoint after_toggles (nows : list string) (user_id post_id : string)
    (w : World) : World :=
  match nows with
  | [] => w
  | now :: rest =>
      after_toggles rest user_id post_id
        (snd (toggle_like now user_id post_id w))
  end.

(** ** What the like lookup can see *)

(** No item under the post has an id that begins with the like prefix of
    the user. *)
Definition no_like (t : Tables) (post_id user_id : string) : Prop :=
  forall k it, interactions t !! (post_id, k) = Some it ->
    String.prefix (Interaction.like_prefix user_id) k = false.

(** The item under [(post_id, k)] is the only one whose id begins with the
    like prefix of the user. *)
Definition one_like (t : Tables) (post_id user_id k : string) : Prop :=
  is_Some (interactions t !! (post_id, k))
  /\ String.prefix (Interaction.like_prefix user_id) k = true
  /\ forall k' it, interactions t !! (post_id, k') = Some it ->
       String.prefix (Interaction.like_prefix user_id) k' = true -> k' = k.

(** Whether the user currently likes the post, as the lookup sees it. *)
Definition like_state (b : bool) (t : Tables) (post_id user_id : string)
  : Prop :=
  if b then exists k, one_like t post_id user_id k
  else no_like t post_id user_id.

(** The comment [add_comment] builds once its checks have passed. *)
Definition new_comment (now user_id post_id content : string)
  : Interaction.t :=
  Interaction.new now post_id user_id "comment" (Some (strip content)).

(** A text of [n] letters. *)
Definition letters (n : nat) : string :=
  string_of_list_ascii (replicate n "a"%char).

(** The id given to a comment of [user_id] built when the clock reads
    [now]. *)
Definition comment_id (now user_id : string) : string :=
  "comment" +:+ "#" +:+ user_id +:+ "#" +:+ now.

(** The item stored for a comment. *)
Definition comment_item (now user_id text : string) : InteractionItem :=
  {| ii_user_id := user_id;
     ii_interaction_type := "comment";
     ii_created_at := now;
     ii_content := Some text |}.

(** The comments [delete_comment] gets to see: of the first 50 items stored
    under the post, those of type [comment]. *)
Definition read_comments (t : Tables) (post_id : string)
  : list (string * InteractionItem) :=
  Table.query_items t post_id None 50 (Some "comment").

(** Two decimal digits. *)
Definition two_digits (n : nat) : string :=
  String (ascii_of_nat (48 + n / 10))
    (String (ascii_of_nat (48 + n mod 10)) EmptyString).

(** The clock reading of the [n]-th comment of the crowded post below. *)
Definition reading (n : nat) : string :=
  "2024-03-01T10:00:" +:+ two_digits n.

(** The post of [t0] after user u1 has commented on it 51 times, one
    second apart. *)
Definition crowded : Tables :=
  {| users := users t0;
     posts := <["p1" := Table.add_counts 0 51 photo]> ∅;
     interactions :=
       foldr (fun n m =>
                <[("p1", comment_id (reading n) "u1")
                  := comment_item (reading n) "u1" "hi"]> m)
             ∅ (seq 0 51) |}.

(** The crowded post once user u2 has liked it. *)
Definition busy : Tables :=
  counted 1 0 "p1"
    (with_interaction "p1" "like#u2#2024-03-01T10:01:00"
       {| ii_user_id := "u2"; ii_interaction_type := "like";
          ii_created_at := "2024-03-01T10:01:00"; ii_content := None |}
       crowded).

(** The string holds no ['#']. *)
Fixpoint no_hash (s : string) : bool :=
  match s with
  | EmptyString => true
  | String c s' => negb (Ascii.eqb c "#") && no_hash s'
  end.

(** A store whose two users have ids that share a prefix up to a ['#']. *)
Definition t_hash : Tables :=
  {| users := <["a#b" := alice]> (<["a" := bob]> ∅);
     posts := <["p1" := photo]> ∅;
     interactions := ∅ |}.

(** The tables of [t_hash] once user [a#b] has liked the post. *)
Definition t_ab : Tables :=
  tables (snd (toggle_like "2024-02-01T10:00:01" "a#b" "p1" (up t_hash))).

(** The entry [get_post_likes] builds for a like whose user exists. *)
Definition like_entry_of (t : Tables) (like : Interaction.t)
  : option like_entry :=
  (fun user : UserItem =>
     {| l_user_id := Interaction.user_id like;
        l_username := ui_username user;
        l_profile_image := ui_profile_image user;
        l_created_at := Interaction.created_at like |})
  <$> users t !! Interaction.user_id like.

(** The entry [get_post_comments] builds for a comment whose user
    exists. *)
Definition comment_entry_of (t : Tables) (c : Interaction.t)
  : option comment_entry :=
  (fun user : UserItem =>
     {| e_interaction_id := Interaction.interaction_id c;
        e_user_id := Interaction.user_id c;
        e_username := ui_username user;
        e_profile_image := ui_profile_image user;
        e_content := Interaction.content c;
        e_created_at := Interaction.created_at c |})
  <$> users t !! Interaction.user_id c.

(** Oldest first. *)
Definition created_le (x y : comment_entry) : Prop :=
  String.leb (e_created_at x) (e_created_at y) = true.

(** The post of [t0] once user u1 has commented on it when the clock read
    10:00:01. *)
Definition t_commented : Tables :=
  {| users := users t0;
     posts := <["p1" := Table.add_counts 0 1 photo]> ∅;
     interactions :=
       <[("p1", comment_id "2024-02-01T10:00:01" "u1")
         := comment_item "2024-02-01T10:00:01" "u1" "first"]> ∅ |}.

(** A post with three comments whose ids are not in the order in which
    they were written: u2 wrote first, then u1, then u2 again. *)
Definition t_thread : Tables :=
  {| users := users t0;
     posts := <["p1" := Table.add_counts 0 3 photo]> ∅;
     interactions :=
       <[("p1", comment_id "2024-02-01T10:00:01" "u2")
         := comment_item "2024-02-01T10:00:01" "u2" "first"]>
       (<[("p1", comment_id "2024-02-01T10:00:02" "u1")
          := comment_item "2024-02-01T10:00:02" "u1" "second"]>
        (<[("p1", comment_id "2024-02-01T10:00:03" "u2")
           := comment_item "2024-02-01T10:00:03" "u2" "third"]> ∅)) |}.

(** A post whose counter says 5 and that has one like, by u2. *)
Definition t_drifted : Tables :=
  {| users := users t0;
     posts := <["p1" := Table.add_counts 5 0 photo]> ∅;
     interactions :=
       <[("p1", "like#u2#2024-02-01T10:00:01")
         := {| ii_user_id := "u2"; ii_interaction_type := "like";
               ii_created_at := "2024-02-01T10:00:01";
               ii_content := None |}]> ∅ |}.

(** ** Store failures *)

(** Every call made to the store between [w] and [w'] was served: what is
    left of the plan is the plan without its first [k] outcomes, none of
    which was a failure. *)
Definition served (w w' : World) : Prop :=
  exists k : nat,
    plan w' = drop k (plan w)
    /\ Forall (fun o : option string => o = None) (take k (plan w)).

(** An operation lets store failures through: it returns normally only
    when every call it made to the store was served. *)
Definition propagates {A} (m : M A) : Prop :=
  forall w a w', m w = (inr a, w') -> served w w'.

(** A store whose next call fails for lack of capacity. *)
Definition throttled (t : Tables) : World :=
  {| tables := t;
     plan := [Some "ProvisionedThroughputExceededException"] |}.

(** The comment of [t_commented] once its post is gone. *)
Definition t_orphan : Tables :=
  {| users := users t_commented;
     posts := ∅;
     interactions := interactions t_commented |}.

(** ** Items as the service writes them *)

(** The id of the item is the one [Interaction.__init__] builds from its
    fields, and its type is one of the two the service uses. *)
Definition keyed_item (k : string) (it : InteractionItem) : Prop :=
  k = ii_interaction_type it +:+ "#" +:+ ii_user_id it +:+ "#"
      +:+ ii_created_at it
  /\ (ii_interaction_type it = "like" \/ ii_interaction_type it = "comment").

Definition keyed (t : Tables) : Prop :=
  forall p k it, interactions t !! (p, k) = Some it -> keyed_item k it.

(** No stored item belongs to a user whose id holds a ['#']. *)
Definition plain_ids (t : Tables) : Prop :=
  forall p k it, interactions t !! (p, k) = Some it ->
    no_hash (ii_user_id it) = true.

(** How many items of a given type a post has. *)
Definition count_type (ty : string) (t : Tables) (post_id : string) : Z :=
  Z.of_nat
    (length
       (List.filter (fun e => String.eqb (ii_interaction_type e.2) ty)
          (partition t post_id))).

(** The counters of the post say how many likes and comments it has. *)
Definition counts_agree (t : Tables) (post_id : string) : Prop :=
  stored_likes_count (up t) post_id = count_type "like" t post_id
  /\ stored_comments_count (up t) post_id = count_type "comment" t post_id.

(** A store that serves [n] calls and fails at the next one with an
    exception of the given text. *)
Definition fails_after (n : nat) (text : string) (t : Tables) : World :=
  {| tables := t; plan := replicate n None ++ [Some text] |}.

(** What the decorator makes of an exception of the store. *)
Definition monitored (operation_name text : string) : exn :=
  if mentions_store (BotoError text)
  then DatabaseError operation_name
  else BotoError text.

(** The only exceptions an operation raises are those of [P]. *)
Definition raises_only {A} (P : exn -> Prop) (m : M A) : Prop :=
  forall w e w', m w = (inl e, w') -> P e.

(** An exception of the store, as raised by boto3. *)
Definition from_store (e : exn) : Prop := exists text, e = BotoError text.

(** ** The ends of a string *)

Definition first_char (s : string) : option ascii :=
  match s with
  | EmptyString => None
  | String c _ => Some c
  end.

Fixpoint last_char (s : string) : option ascii :=
  match s with
  | EmptyString => None
  | String c EmptyString => Some c
  | String _ s' => last_char s'
  end.

(** The string neither begins nor ends with a space. *)
Definition trimmed (s : string) : Prop :=
  (forall c, first_char s = Some c -> isspace c = false)
  /\ (forall c, last_char s = Some c -> isspace c = false).

(** An operation that never writes: the tables are the same after it,
    whatever it returns or raises. *)
Definition read_only {A} (m : M A) : Prop :=
  forall w r w', m w = (r, w') -> tables w' = tables w.

(** ** post_service.py *)

(** [validate_post_ownership]: any exception is answered with [False]. *)
Definition validate_post_ownership (post_id user_id : string) : M bool :=
  try_except
    (do post <- Post.get_by_id post_id;
     match post with
     | None => ret false
     | Some post => ret (String.eqb (Post.user_id post) user_id)
     end)
    (fun _ => ret false).

Record post_stats : Type := {
  stats_likes_count : Z;
  stats_comments_count : Z
}.

(** [get_post_stats]: the message of its [ValidationError] is the text
    of "post not found". *)
Definition get_post_stats (post_id : string) : M post_stats :=
  do post <- Post.get_by_id post_id;
  match post with
  | None => raise (ValidationError PostNotFound)
  | Some post =>
      ret {| stats_likes_count := Post.likes_count post;
             stats_comments_count := Post.comments_count post |}
  end.

(** What [delete_post] raises: three exceptions of its own, or whatever
    the calls it makes raise. *)
Inductive post_error : Type :=
  | PostIdRequired      (* ValidationError 投稿IDが必要です *)
  | UserIdRequired      (* ValidationError ユーザーIDが必要です *)
  | NotOwner            (* AuthenticationError この投稿を削除する権限がありません *)
  | Raised (e : exn).

(** [for interaction in interactions: interaction.delete()] *)
Fixpoint delete_all (interactions : list Interaction.t) : M unit :=
  match interactions with
  | [] => ret tt
  | interaction :: rest =>
      run Interaction.delete interaction;
      delete_all rest
  end.

Definition delete_post (post_id user_id : string)
  : World -> (post_error + bool) * World :=
  fun w =>
    if String.eqb post_id "" then (inl PostIdRequired, w)
    else if String.eqb user_id "" then (inl UserIdRequired, w)
    else
      match Post.get_by_id post_id w with
      | (inl e, w1) => (inl (Raised e), w1)
      | (inr None, w1) => (inl (Raised (ValidationError PostNotFound)), w1)
      | (inr (Some post), w1) =>
          if negb (String.eqb (Post.user_id post) user_id)
          then (inl NotOwner, w1)
          else
            match (do interactions <-
                     Interaction.get_post_interactions post_id None 50;
                   run delete_all interactions;
                   run Post.delete post;
                   ret true) w1 with
            | (inl e, w2) => (inl (Raised e), w2)
            | (inr deleted, w2) => (inr deleted, w2)
            end
      end.

(** The tables after the items of a list were deleted, first to last. *)
Definition without_all (l : list Interaction.t) (t : Tables) : Tables :=
  fold_left
    (fun t i =>
       without_interaction (Interaction.post_id i)
         (Interaction.interaction_id i) t)
    l t.

(** The tables after a post was deleted. *)
Definition without_post (p : string) (t : Tables) : Tables :=
  {| users := users t;
     posts := delete p (posts t);
     interactions := interactions t |}.

(** The items [delete_post] gets to see: the first 50 of the post. *)
Definition read_items (t : Tables) (post_id : string)
  : list (string * InteractionItem) :=
  Table.query_items t post_id None 50 None.

(** * Properties *)

(** Closes a goal about concrete data by evaluation. *)
Ltac by_eval :=
  vm_compute;
  first [ reflexivity | discriminate | intro; discriminate
        | eexists; reflexivity | intuition congruence ].

(** ** Sorting *)

Section SortByFacts.
Context {A : Type} (key : A -> string).

Lemma insert_by_perm (x : A) (l : list A) :
  Permutation (insert_by key x l) (x :: l).
Proof.
  induction l as [|y l IH]; simpl; [reflexivity|].
  destruct (String.leb (key x) (key y)); [reflexivity|].
  rewrite IH. apply perm_swap.
Qed.

Lemma sort_by_perm (l : list A) : Permutation (sort_by key l) l.
Proof.
  induction l as [|x l IH]; simpl; [reflexivity|].
  rewrite insert_by_perm. now constructor.
Qed.

Lemma elem_of_sort_by (x : A) (l : list A) : x ∈ sort_by key l <-> x ∈ l.
Proof. now rewrite (sort_by_perm l). Qed.

Lemma NoDup_sort_by (l : list A) : NoDup l -> NoDup (sort_by key l).
Proof. now rewrite (sort_by_perm l). Qed.

Lemma length_sort_by (l : list A) : length (sort_by key l) = length l.
Proof. now rewrite (sort_by_perm l). Qed.

(** Adjacent elements of the result are in order. *)
Definition key_le (x y : A) : Prop := String.leb (key x) (key y) = true.

Lemma insert_by_sorted (x : A) (l : list A) :
  Sorted key_le l -> Sorted key_le (insert_by key x l).
Proof.
  induction l as [|y l IH]; simpl; intros Hs.
  - repeat constructor.
  - destruct (String.leb (key x) (key y)) eqn:Hxy.
    + constructor; [assumption|]. now constructor.
    + apply Sorted_inv in Hs as [Hs Hhd].
      constructor; [now apply IH|].
      assert (Hyx : key_le y x).
      { destruct (String.leb_total (key x) (key y)); [congruence|easy]. }
      destruct l as [|z l]; simpl.
      * now constructor.
      * destruct (String.leb (key x) (key z)); constructor; trivial.
        now inversion Hhd.
Qed.

Lemma sort_by_sorted (l : list A) : Sorted key_le (sort_by key l).
Proof.
  induction l as [|x l IH]; simpl; [constructor|].
  now apply insert_by_sorted.
Qed.
End SortByFacts.

(** ** The partition of a post *)

Lemma elem_of_partition (t : Tables) (p k : string) (it : InteractionItem) :
  (k, it) ∈ partition t p <-> interactions t !! (p, k) = Some it.
Proof.
  unfold partition. rewrite elem_of_sort_by, list_elem_of_omap. split.
  - intros ([[p' k'] it'] & Hin & Heq). simpl in Heq.
    destruct (decide (p' = p)) as [->|]; [|discriminate].
    injection Heq as -> ->. now apply elem_of_map_to_list in Hin.
  - intros Hl. exists ((p, k), it). split.
    + now apply elem_of_map_to_list.
    + simpl. now rewrite decide_True.
Qed.

Lemma NoDup_partition (t : Tables) (p : string) : NoDup (partition t p).
Proof.
  unfold partition. apply NoDup_sort_by.
  generalize (NoDup_map_to_list (interactions t)).
  induction (map_to_list (interactions t)) as [|[[p' k'] it'] l IH];
    simpl; intros Hnd; [constructor|].
  apply NoDup_cons in Hnd as [Hni Hnd].
  destruct (decide (p' = p)) as [->|]; [|now apply IH].
  apply NoDup_cons. split; [|now apply IH].
  rewrite list_elem_of_omap. intros ([[p2 k2] it2] & Hin & Heq).
  simpl in Heq. destruct (decide (p2 = p)) as [->|]; [|discriminate].
  injection Heq as -> ->. contradiction.
Qed.

(** ** The operations on a store that serves every call *)

#[local] Arguments store_call : simpl never.
#[local] Arguments get_table : simpl never.
#[local] Arguments Post.get_by_id : simpl never.
#[local] Arguments Post.update_counts : simpl never.
#[local] Arguments User.get_by_id : simpl never.
#[local] Arguments Interaction.save : simpl never.
#[local] Arguments Interaction.delete : simpl never.
#[local] Arguments Interaction.delete_like : simpl never.
#[local] Arguments Interaction.get_user_like : simpl never.
#[local] Arguments Interaction.get_post_interactions : simpl never.
#[local] Arguments partition : simpl never.

Lemma store_call_up {A} (f : Tables -> (exn + A) * Tables) (t : Tables) :
  store_call f (up t) = (fst (f t), up (snd (f t))).
Proof. unfold store_call, up. simpl. now destruct (f t). Qed.

Lemma Post_get_by_id_up (p : string) (t : Tables) :
  Post.get_by_id p (up t) = (inr (Post.of_item p <$> posts t !! p), up t).
Proof.
  unfold Post.get_by_id, bind, get_table, Table.get_post.
  repeat (rewrite store_call_up; simpl).
  now destruct (posts t !! p).
Qed.

Lemma User_get_by_id_up (u : string) (t : Tables) :
  User.get_by_id u (up t) = (inr (User.of_item u <$> users t !! u), up t).
Proof.
  unfold User.get_by_id, monitor_database_operation, try_except, bind,
    get_table, Table.get_user.
  repeat (rewrite store_call_up; simpl).
  now destruct (users t !! u).
Qed.

Lemma Post_update_counts_up (post : Post.t) (dl dc : Z) (t : Tables) :
  Post.update_counts post dl dc (up t)
  = (inr {| Post.post_id := Post.post_id post;
            Post.user_id := Post.user_id post;
            Post.image_key := Post.image_key post;
            Post.caption := Post.caption post;
            Post.likes_count := Post.likes_count post + dl;
            Post.comments_count := Post.comments_count post + dc;
            Post.created_at := Post.created_at post |},
     up (counted dl dc (Post.post_id post) t)).
Proof.
  unfold Post.update_counts, bind, get_table, Table.update_post_counts.
  now repeat (rewrite store_call_up; simpl).
Qed.

Lemma get_user_like_up (p u : string) (t : Tables) :
  Interaction.get_user_like p u (up t)
  = (inr (Interaction.of_item p <$> head (likes_of t p u)), up t).
Proof.
  unfold Interaction.get_user_like, bind, get_table, Table.query.
  simpl. repeat (rewrite store_call_up; simpl).
  unfold Table.query_items. fold (likes_of t p u).
  now destruct (likes_of t p u).
Qed.

Lemma Interaction_save_up (i : Interaction.t) (t : Tables) :
  Interaction.save i (up t)
  = (inr true,
     up (with_interaction (Interaction.post_id i) (Interaction.interaction_id i)
           (Interaction.to_item i) t)).
Proof.
  unfold Interaction.save, bind, get_table, Table.put_interaction.
  now repeat (rewrite store_call_up; simpl).
Qed.

Lemma Interaction_delete_up (i : Interaction.t) (t : Tables) :
  Interaction.delete i (up t)
  = (inr true,
     up (without_interaction (Interaction.post_id i)
           (Interaction.interaction_id i) t)).
Proof.
  unfold Interaction.delete, bind, get_table, Table.delete_interaction.
  now repeat (rewrite store_call_up; simpl).
Qed.

Lemma delete_like_up (p u : string) (t : Tables) :
  Interaction.delete_like p u (up t)
  = match head (likes_of t p u) with
    | Some e => (inr true, up (without_interaction p e.1 t))
    | None => (inr false, up t)
    end.
Proof.
  unfold Interaction.delete_like, bind. rewrite get_user_like_up.
  destruct (head (likes_of t p u)) as [e|]; simpl; [|reflexivity].
  unfold get_table, Table.delete_interaction.
  now repeat (rewrite store_call_up; simpl).
Qed.

(** What [toggle_like] does on a store that serves every call. *)
Lemma toggle_like_up (now u p : string) (t : Tables) :
  toggle_like now u p (up t)
  = match posts t !! p with
    | None => (inl (NotFoundError PostNotFound), up t)
    | Some item =>
        match head (likes_of t p u) with
        | Some e =>
            (inr {| liked := false;
                    likes_count := default 0 (pi_likes_count item) + -1;
                    like_message := LikeRemoved |},
             up (counted (-1) 0 p (without_interaction p e.1 t)))
        | None =>
            (inr {| liked := true;
                    likes_count := default 0 (pi_likes_count item) + 1;
                    like_message := LikeAdded |},
             up (counted 1 0 p
                   (with_interaction p
                      (Interaction.interaction_id
                         (Interaction.new now p u "like" None))
                      (Interaction.to_item
                         (Interaction.new now p u "like" None)) t)))
        end
    end.
Proof.
  unfold toggle_like, monitor_database_operation, try_except, bind.
  rewrite Post_get_by_id_up.
  destruct (posts t !! p) as [item|]; simpl; [|reflexivity].
  rewrite get_user_like_up.
  destruct (head (likes_of t p u)) as [e|] eqn:Hhead; simpl.
  - rewrite delete_like_up, Hhead. now rewrite Post_update_counts_up.
  - reflexivity.
Qed.

(** ** What the like lookup finds *)

Lemma elem_of_likes_of (t : Tables) (p u k : string) (it : InteractionItem) :
  (k, it) ∈ likes_of t p u
  <-> interactions t !! (p, k) = Some it
      /\ String.prefix (Interaction.like_prefix u) k = true.
Proof.
  unfold likes_of. rewrite list_elem_of_In, filter_In, <- list_elem_of_In.
  now rewrite elem_of_partition.
Qed.

Lemma head_likes_of_None (t : Tables) (p u : string) :
  head (likes_of t p u) = None <-> no_like t p u.
Proof.
  split.
  - intros Hh k it Hl.
    destruct (String.prefix (Interaction.like_prefix u) k) eqn:Hp; [|easy].
    assert (Hin : (k, it) ∈ likes_of t p u) by now apply elem_of_likes_of.
    destruct (likes_of t p u); [inversion Hin | discriminate].
  - intros Hno. destruct (likes_of t p u) as [|[k it] l] eqn:Hl; [easy|].
    assert (Hin : (k, it) ∈ likes_of t p u) by (rewrite Hl; left).
    apply elem_of_likes_of in Hin as [Hin Hp].
    rewrite (Hno _ _ Hin) in Hp. discriminate.
Qed.

Lemma head_likes_of_one (t : Tables) (p u k : string) :
  one_like t p u k ->
  exists it, interactions t !! (p, k) = Some it
             /\ head (likes_of t p u) = Some (k, it).
Proof.
  intros ([it Hit] & Hp & Honly). exists it. split; [assumption|].
  destruct (likes_of t p u) as [|[k' it'] l] eqn:Hl.
  - assert (Hin : (k, it) ∈ likes_of t p u) by now apply elem_of_likes_of.
    rewrite Hl in Hin. inversion Hin.
  - assert (Hin : (k', it') ∈ likes_of t p u) by (rewrite Hl; left).
    apply elem_of_likes_of in Hin as [Hin Hp'].
    pose proof (Honly _ _ Hin Hp') as ->.
    simpl. congruence.
Qed.

Lemma append_cons (x : ascii) (a b : string) :
  String x a +:+ b = String x (a +:+ b).
Proof. reflexivity. Qed.

Lemma append_nil (b : string) : "" +:+ b = b.
Proof. reflexivity. Qed.

Lemma prefix_append (a b : string) : String.prefix a (a +:+ b) = true.
Proof.
  induction a as [|c a IH]; [now destruct b|].
  rewrite append_cons. simpl.
  destruct (ascii_dec c c); [assumption|contradiction].
Qed.

Lemma append_assoc (a b c : string) : (a +:+ b) +:+ c = a +:+ b +:+ c.
Proof.
  induction a as [|x a IH]; [reflexivity|].
  rewrite !append_cons. now rewrite IH.
Qed.

Lemma like_id_prefix (now p u : string) (c : option string) :
  String.prefix (Interaction.like_prefix u)
    (Interaction.interaction_id (Interaction.new now p u "like" c)) = true.
Proof.
  replace (Interaction.interaction_id (Interaction.new now p u "like" c))
    with (Interaction.like_prefix u +:+ now); [apply prefix_append|].
  unfold Interaction.like_prefix, Interaction.new, Interaction.interaction_id.
  now rewrite !append_assoc.
Qed.

Lemma no_like_added (t : Tables) (p u k : string) (it : InteractionItem) :
  no_like t p u ->
  String.prefix (Interaction.like_prefix u) k = true ->
  one_like (with_interaction p k it t) p u k.
Proof.
  intros Hno Hp. unfold one_like, with_interaction. simpl.
  split; [rewrite lookup_insert_eq; eauto|].
  split; [assumption|].
  intros k' it' Hl Hp'. destruct (decide (k' = k)) as [|Hne]; [assumption|].
  rewrite lookup_insert_ne in Hl by congruence.
  rewrite (Hno _ _ Hl) in Hp'. discriminate.
Qed.

Lemma one_like_removed (t : Tables) (p u k : string) :
  one_like t p u k -> no_like (without_interaction p k t) p u.
Proof.
  intros (_ & _ & Honly) k' it'. unfold without_interaction. simpl.
  intros Hl. destruct (decide (k' = k)) as [->|Hne].
  - rewrite lookup_delete_eq in Hl. discriminate.
  - rewrite lookup_delete_ne in Hl by congruence.
    destruct (String.prefix (Interaction.like_prefix u) k') eqn:Hp; [|easy].
    now specialize (Honly _ _ Hl Hp).
Qed.

Lemma get_user_like_status_up (u p : string) (t : Tables) :
  get_user_like_status u p (up t)
  = (inr (bool_decide (is_Some (head (likes_of t p u)))), up t).
Proof.
  unfold get_user_like_status, try_except, bind.
  rewrite get_user_like_up. simpl.
  destruct (head (likes_of t p u)); simpl; f_equal; f_equal;
    apply bool_decide_ext; split; intros [? ?]; eauto; discriminate.
Qed.

Lemma status_false_no_like (u p : string) (t : Tables) :
  fst (get_user_like_status u p (up t)) = inr false <-> no_like t p u.
Proof.
  rewrite get_user_like_status_up, <- head_likes_of_None. simpl.
  destruct (head (likes_of t p u)); split; intros H;
    first [discriminate | reflexivity].
Qed.

Lemma status_true_one_like (u p k : string) (t : Tables) :
  one_like t p u k -> fst (get_user_like_status u p (up t)) = inr true.
Proof.
  intros H. rewrite get_user_like_status_up. simpl.
  now destruct (head_likes_of_one _ _ _ _ H) as (it & _ & ->).
Qed.

(** ** One toggle *)

Lemma toggle_like_step (b : bool) (t : Tables) (item : PostItem)
    (now u p : string) :
  posts t !! p = Some item ->
  like_state b t p u ->
  exists t',
    toggle_like now u p (up t)
    = (inr {| liked := negb b;
              likes_count :=
                default 0 (pi_likes_count item) + (if b then -1 else 1);
              like_message := if b then LikeRemoved else LikeAdded |},
       up t')
    /\ like_state (negb b) t' p u
    /\ posts t' !! p = Some (Table.add_counts (if b then -1 else 1) 0 item).
Proof.
  intros Hpost Hst. rewrite toggle_like_up, Hpost.
  destruct b; simpl in Hst |- *.
  - destruct Hst as [k Hone].
    destruct (head_likes_of_one _ _ _ _ Hone) as (it & _ & ->).
    eexists. split; [reflexivity|]. split.
    + now apply one_like_removed.
    + simpl. now rewrite lookup_alter_eq, Hpost.
  - apply head_likes_of_None in Hst as Hnone. rewrite Hnone.
    eexists. split; [reflexivity|]. split.
    + eexists. apply no_like_added; [assumption|].
      apply (like_id_prefix now p u None).
    + simpl. now rewrite lookup_alter_eq, Hpost.
Qed.

Lemma after_toggles_state (nows : list string) (b : bool) (t : Tables)
    (item : PostItem) (u p : string) :
  posts t !! p = Some item ->
  like_state b t p u ->
  exists t' item',
    after_toggles nows u p (up t) = up t'
    /\ posts t' !! p = Some item'
    /\ like_state (xorb b (Nat.odd (length nows))) t' p u
    /\ default 0 (pi_likes_count item')
       = default 0 (pi_likes_count item)
         + (if Nat.odd (length nows) then (if b then -1 else 1) else 0).
Proof.
  revert b t item.
  induction nows as [|now nows IH]; intros b t item Hpost Hst.
  - exists t, item. simpl. rewrite xorb_false_r. repeat split; trivial. lia.
  - destruct (toggle_like_step b t item now u p Hpost Hst)
      as (t1 & Hrun & Hst1 & Hpost1).
    destruct (IH _ _ _ Hpost1 Hst1) as (t' & item' & Hafter & Hp' & Hst' & Hc).
    exists t', item'. simpl after_toggles. rewrite Hrun. simpl snd.
    split; [assumption|]. split; [assumption|].
    change (length (now :: nows)) with (S (length nows)).
    rewrite Nat.odd_succ, <- Nat.negb_odd. split.
    + now destruct b, (Nat.odd (length nows)).
    + rewrite Hc. simpl.
      destruct b, (Nat.odd (length nows)); simpl; lia.
Qed.

Lemma stored_likes_count_up (t : Tables) (p : string) (item : PostItem) :
  posts t !! p = Some item ->
  stored_likes_count (up t) p = default 0 (pi_likes_count item).
Proof. intros H. unfold stored_likes_count. simpl. now rewrite H. Qed.

(** Alternation, told from the lookup. For a user and an existing post
    for which the like lookup finds nothing at the start, the call of
    [toggle_like] that follows any number of earlier calls (so the [n]-th
    call, [n] being one more than that number) succeeds and answers
    [liked = (n is odd)]; it moves the stored [likes_count] by [+1] when
    it likes and by [-1] when it unlikes, reports the stored value, and
    after an even number of calls the stored value is the initial one. *)
Lemma toggle_like_alternates_by_lookup (t : Tables) (item : PostItem) (u p : string)
    (before : list string) (now : string) :
  posts t !! p = Some item ->
  fst (get_user_like_status u p (up t)) = inr false ->
  let w := after_toggles before u p (up t) in
  let n := S (length before) in
  exists res w',
    toggle_like now u p w = (inr res, w')
    /\ liked res = Nat.odd n
    /\ stored_likes_count w' p
       = stored_likes_count w p + (if liked res then 1 else -1)
    /\ likes_count res = stored_likes_count w' p
    /\ (Nat.even n = true ->
        stored_likes_count w' p = stored_likes_count (up t) p).
Proof.
  intros Hpost Hnone w n. subst w n.
  apply status_false_no_like in Hnone.
  destruct (after_toggles_state before false t item u p Hpost Hnone)
    as (t1 & item1 & -> & Hpost1 & Hst1 & Hc1).
  rewrite xorb_false_l in Hst1.
  destruct (toggle_like_step _ t1 item1 now u p Hpost1 Hst1)
    as (t2 & Hrun & _ & Hpost2).
  eexists _, (up t2). split; [exact Hrun|].
  rewrite (stored_likes_count_up _ _ _ Hpost), (stored_likes_count_up _ _ _ Hpost1),
    (stored_likes_count_up _ _ _ Hpost2).
  rewrite Nat.odd_succ, Nat.even_succ, <- Nat.negb_odd. simpl.
  destruct (Nat.odd (length before)); simpl; repeat split; lia.
Qed.

(** ** A post that does not exist *)

(** C7. When [post_id] names no post, [toggle_like] raises [NotFoundError]
    and leaves the three tables as they were. *)
Theorem toggle_like_post_not_found (t : Tables) (now u p : string) :
  posts t !! p = None ->
  toggle_like now u p (up t) = (inl (NotFoundError PostNotFound), up t).
Proof. intros H. now rewrite toggle_like_up, H. Qed.

Lemma toggle_like_post_not_found_witness :
  toggle_like "2024-02-01T10:00:01" "u1" "p9" (up t0)
  = (inl (NotFoundError PostNotFound), up t0).
Proof.
  apply (toggle_like_post_not_found t0 "2024-02-01T10:00:01" "u1" "p9").
  vm_compute. reflexivity.
Defined.

(** ** Adding a comment *)

(** What [add_comment] does on a store that serves every call. *)
Lemma add_comment_up (now u p : string) (content : option string)
    (t : Tables) :
  add_comment now u p content (up t)
  = match content with
    | None => (inl (ValidationError CommentRequired), up t)
    | Some c =>
        if String.eqb (strip c) ""
        then (inl (ValidationError CommentRequired), up t)
        else if len (strip c) >? 500
        then (inl (ValidationError CommentTooLong), up t)
        else
          match posts t !! p with
          | None => (inl (NotFoundError PostNotFound), up t)
          | Some item =>
              match users t !! u with
              | None => (inl (NotFoundError UserNotFound), up t)
              | Some user =>
                  (inr {| comment :=
                            {| c_interaction_id :=
                                 Interaction.interaction_id
                                   (new_comment now u p c);
                               c_post_id := p;
                               c_user_id := u;
                               c_username := ui_username user;
                               c_content := Some (strip c);
                               c_created_at := now |};
                          comments_count :=
                            default 0 (pi_comments_count item) + 1;
                          comment_message := CommentPosted |},
                   up (counted 0 1 p
                         (with_interaction p
                            (Interaction.interaction_id
                               (new_comment now u p c))
                            (Interaction.to_item (new_comment now u p c))
                            t)))
              end
          end
    end.
Proof.
  unfold add_comment, monitor_database_operation, try_except.
  destruct content as [c|]; [|reflexivity].
  destruct (String.eqb_spec c "") as [->|Hc]; [reflexivity|].
  rewrite orb_false_l.
  destruct (String.eqb (strip c) ""); [reflexivity|].
  destruct (len (strip c) >? 500); [reflexivity|].
  unfold bind. rewrite Post_get_by_id_up.
  destruct (posts t !! p) as [item|]; simpl; [|reflexivity].
  rewrite User_get_by_id_up.
  destruct (users t !! u) as [user|]; reflexivity.
Qed.

(** C2. The checks of [add_comment], in their order: content that is
    missing, empty or blank raises [ValidationError]; otherwise more than
    500 characters after trimming raise [ValidationError] (500 pass, 501
    do not); otherwise a missing post raises [NotFoundError]; otherwise a
    missing user raises [NotFoundError]. In each of these cases the
    tables are left as they were. *)
Theorem add_comment_checks (t : Tables) (now u p c : string) :
  add_comment now u p None (up t)
  = (inl (ValidationError CommentRequired), up t)
  /\ (strip c = "" ->
      add_comment now u p (Some c) (up t)
      = (inl (ValidationError CommentRequired), up t))
  /\ (strip c <> "" -> len (strip c) > 500 ->
      add_comment now u p (Some c) (up t)
      = (inl (ValidationError CommentTooLong), up t))
  /\ (strip c <> "" -> len (strip c) <= 500 -> posts t !! p = None ->
      add_comment now u p (Some c) (up t)
      = (inl (NotFoundError PostNotFound), up t))
  /\ (strip c <> "" -> len (strip c) <= 500 -> is_Some (posts t !! p) ->
      users t !! u = None ->
      add_comment now u p (Some c) (up t)
      = (inl (NotFoundError UserNotFound), up t))
  /\ (len (strip c) = 501 ->
      add_comment now u p (Some c) (up t)
      = (inl (ValidationError CommentTooLong), up t))
  /\ (len (strip c) = 500 -> is_Some (posts t !! p) ->
      is_Some (users t !! u) ->
      exists r w', add_comment now u p (Some c) (up t) = (inr r, w')).
Proof.
  assert (Hgt : forall n, n > 500 -> (n >? 500) = true) by (intros; lia).
  assert (Hle : forall n, n <= 500 -> (n >? 500) = false) by (intros; lia).
  assert (Hne : forall n, len (strip c) = n -> 0 < n -> strip c <> "").
  { intros n Hn Hpos Hs. rewrite Hs in Hn. change (len "") with 0 in Hn. lia. }
  split; [now rewrite add_comment_up|].
  repeat split; rewrite add_comment_up.
  - intros ->. reflexivity.
  - intros Hs Hl. apply String.eqb_neq in Hs. now rewrite Hs, Hgt.
  - intros Hs Hl Hp. apply String.eqb_neq in Hs. now rewrite Hs, Hle, Hp.
  - intros Hs Hl [item Hp] Hu. apply String.eqb_neq in Hs.
    now rewrite Hs, Hle, Hp, Hu.
  - intros Hl. assert (Hs : strip c <> "") by (apply (Hne 501); lia).
    apply String.eqb_neq in Hs. rewrite Hs, Hgt; [reflexivity|lia].
  - intros Hl [item Hp] [user Hu].
    assert (Hs : strip c <> "") by (apply (Hne 500); lia).
    apply String.eqb_neq in Hs. rewrite Hs, Hle, Hp, Hu by lia. eauto.
Qed.

Lemma add_comment_checks_witness :
  add_comment "2024-02-01T10:00:01" "u1" "p1" (Some "   ") (up t0)
  = (inl (ValidationError CommentRequired), up t0)
  /\ add_comment "2024-02-01T10:00:01" "u1" "p1"
       (Some (" " +:+ letters 501)) (up t0)
     = (inl (ValidationError CommentTooLong), up t0)
  /\ add_comment "2024-02-01T10:00:01" "u1" "p9" (Some "hello") (up t0)
     = (inl (NotFoundError PostNotFound), up t0)
  /\ add_comment "2024-02-01T10:00:01" "u9" "p1" (Some "hello") (up t0)
     = (inl (NotFoundError UserNotFound), up t0)
  /\ exists r w',
       add_comment "2024-02-01T10:00:01" "u1" "p1"
         (Some (letters 500 +:+ " ")) (up t0) = (inr r, w').
Proof.
  split.
  { apply (add_comment_checks t0 "2024-02-01T10:00:01" "u1" "p1" "   ");
      by_eval. }
  split.
  { apply (add_comment_checks t0 "2024-02-01T10:00:01" "u1" "p1"
             (" " +:+ letters 501)); by_eval. }
  split.
  { apply (add_comment_checks t0 "2024-02-01T10:00:01" "u1" "p9" "hello");
      by_eval. }
  split.
  { apply (add_comment_checks t0 "2024-02-01T10:00:01" "u9" "p1" "hello");
      by_eval. }
  apply (add_comment_checks t0 "2024-02-01T10:00:01" "u1" "p1"
           (letters 500 +:+ " ")); by_eval.
Defined.

Lemma stored_comments_count_up (t : Tables) (p : string) (item : PostItem) :
  posts t !! p = Some item ->
  stored_comments_count (up t) p = default 0 (pi_comments_count item).
Proof. intros H. unfold stored_comments_count. simpl. now rewrite H. Qed.

(** C4, as amended. For content that is not blank and has at most 500
    characters after trimming, an existing post and an existing user, and
    provided the post holds no item under the id
    [comment#user_id#now] yet, [add_comment] stores exactly one new item,
    of type [comment], whose content is the trimmed input; it raises the
    stored [comments_count] of the post by 1 and leaves its [likes_count]
    and the Users table alone; the answer carries the new count and the
    comment with the [username] read from the Users table. *)
Theorem add_comment_creates (t : Tables) (now u p c : string)
    (item : PostItem) (user : UserItem) :
  strip c <> "" ->
  len (strip c) <= 500 ->
  posts t !! p = Some item ->
  users t !! u = Some user ->
  interactions t !! (p, comment_id now u) = None ->
  exists r t',
    add_comment now u p (Some c) (up t) = (inr r, up t')
    /\ interactions t'
       = <[(p, comment_id now u) := comment_item now u (strip c)]>
           (interactions t)
    /\ size (interactions t') = S (size (interactions t))
    /\ stored_comments_count (up t') p = stored_comments_count (up t) p + 1
    /\ stored_likes_count (up t') p = stored_likes_count (up t) p
    /\ users t' = users t
    /\ comments_count r = stored_comments_count (up t') p
    /\ comment r
       = {| c_interaction_id := comment_id now u;
            c_post_id := p;
            c_user_id := u;
            c_username := ui_username user;
            c_content := Some (strip c);
            c_created_at := now |}.
Proof.
  intros Hs Hl Hp Hu Hfresh.
  rewrite add_comment_up.
  apply String.eqb_neq in Hs as Hs'. rewrite Hs'.
  replace (len (strip c) >? 500) with false by lia.
  rewrite Hp, Hu. eexists _, _. split; [reflexivity|].
  assert (Hitem : Interaction.to_item (new_comment now u p c)
                  = comment_item now u (strip c)).
  { unfold Interaction.to_item, new_comment, comment_item. simpl.
    now rewrite Hs'. }
  rewrite Hitem.
  change (Interaction.interaction_id (new_comment now u p c))
    with (comment_id now u).
  split; [reflexivity|].
  split; [simpl; now rewrite map_size_insert_None|].
  unfold stored_comments_count, stored_likes_count. simpl.
  rewrite lookup_alter_eq, Hp. simpl.
  repeat split. destruct (pi_likes_count item); simpl; lia.
Qed.

Lemma add_comment_creates_witness :
  exists r t',
    add_comment "2024-02-01T10:00:01" "u1" "p1" (Some "  hello world  ")
      (up t0) = (inr r, up t')
    /\ interactions t' !! ("p1", "comment#u1#2024-02-01T10:00:01")
       = Some (comment_item "2024-02-01T10:00:01" "u1" "hello world")
    /\ stored_comments_count (up t') "p1" = 1
    /\ c_username (comment r) = "alice".
Proof.
  destruct (add_comment_creates t0 "2024-02-01T10:00:01" "u1" "p1"
              "  hello world  " photo alice)
    as (r & t' & Hrun & Hint & _ & Hcount & _ & _ & _ & Hcomment);
    [by_eval ..|].
  exists r, t'. split; [exact Hrun|]. split; [|split].
  - rewrite Hint. apply lookup_insert_eq.
  - rewrite Hcount. reflexivity.
  - rewrite Hcomment. reflexivity.
Defined.

(** ** Deleting a comment *)

Lemma get_post_interactions_up (p : string) (ty : option string) (limit : Z)
    (t : Tables) :
  Interaction.get_post_interactions p ty limit (up t)
  = if limit <? 1
    then (inl (BotoError "Parameter validation failed"), up t)
    else (inr (map (Interaction.of_item p)
                 (Table.query_items t p None limit
                    match ty with
                    | Some ty => if String.eqb ty "" then None else Some ty
                    | None => None
                    end)),
          up t).
Proof.
  unfold Interaction.get_post_interactions, bind, get_table, Table.query.
  rewrite store_call_up. simpl.
  destruct (limit <? 1); [reflexivity|].
  now rewrite store_call_up.
Qed.

Lemma find_fmap {A B} (f : B -> bool) (g : A -> B) (l : list A) :
  List.find f (map g l) = option_map g (List.find (fun x => f (g x)) l).
Proof.
  induction l as [|x l IH]; simpl; [reflexivity|].
  now destruct (f (g x)).
Qed.

(** What [delete_comment] does on a store that serves every call. *)
Lemma delete_comment_up (u p iid : string) (t : Tables) :
  delete_comment u p iid (up t)
  = match List.find (fun e => String.eqb e.1 iid) (read_comments t p) with
    | None => (inl (NotFoundError CommentNotFound), up t)
    | Some e =>
        if negb (String.eqb (ii_user_id e.2) u)
        then (inl (ValidationError NotOwnComment), up t)
        else
          match posts t !! p with
          | Some item =>
              (inr {| delete_message := CommentDeleted;
                      remaining_comments :=
                        default 0 (pi_comments_count item) + -1 |},
               up (counted 0 (-1) p (without_interaction p e.1 t)))
          | None =>
              (inr {| delete_message := CommentDeleted;
                      remaining_comments := 0 |},
               up (without_interaction p e.1 t))
          end
    end.
Proof.
  unfold delete_comment, bind. rewrite get_post_interactions_up.
  change (50 <? 1) with false. cbv iota.
  change (if String.eqb "comment" "" then None else Some "comment")
    with (Some "comment").
  fold (read_comments t p).
  rewrite find_fmap.
  change (fun x => String.eqb (Interaction.interaction_id
                                 (Interaction.of_item p x)) iid)
    with (fun e : string * InteractionItem => String.eqb e.1 iid).
  destruct (List.find _ (read_comments t p)) as [e|]; [|reflexivity].
  unfold option_map. cbv iota beta.
  change (Interaction.user_id (Interaction.of_item p e)) with (ii_user_id e.2).
  destruct (negb (String.eqb (ii_user_id e.2) u)); [reflexivity|].
  rewrite Interaction_delete_up.
  change (Interaction.post_id (Interaction.of_item p e)) with p.
  change (Interaction.interaction_id (Interaction.of_item p e)) with e.1.
  rewrite Post_get_by_id_up. simpl.
  destruct (posts t !! p) as [item|]; reflexivity.
Qed.

Lemma elem_of_read_comments (t : Tables) (p k : string)
    (it : InteractionItem) :
  (k, it) ∈ read_comments t p ->
  interactions t !! (p, k) = Some it /\ ii_interaction_type it = "comment".
Proof.
  unfold read_comments, Table.query_items.
  rewrite list_elem_of_In, filter_In, <- list_elem_of_In.
  intros [Hin Hty]. split.
  - apply elem_of_partition. now apply (subseteq_take 50).
  - now apply String.eqb_eq in Hty.
Qed.

(** A post with at most 50 items has all its comments read. *)
Lemma read_comments_small (t : Tables) (p k : string) (it : InteractionItem) :
  (length (partition t p) <= 50)%nat ->
  interactions t !! (p, k) = Some it ->
  ii_interaction_type it = "comment" ->
  (k, it) ∈ read_comments t p.
Proof.
  intros Hlen Hl Hty. unfold read_comments, Table.query_items.
  rewrite take_ge by (simpl; lia).
  rewrite list_elem_of_In, filter_In, <- list_elem_of_In. split.
  - now apply elem_of_partition.
  - simpl. now rewrite Hty.
Qed.

Lemma find_read_comment (t : Tables) (p k : string) (it : InteractionItem) :
  (k, it) ∈ read_comments t p ->
  List.find (fun e => String.eqb e.1 k) (read_comments t p) = Some (k, it).
Proof.
  intros Hin.
  destruct (List.find _ (read_comments t p)) as [[k' it']|] eqn:Hfind.
  - apply find_some in Hfind as [Hin' Heq]. simpl in Heq.
    apply String.eqb_eq in Heq as ->.
    apply list_elem_of_In, elem_of_read_comments in Hin' as [Hl' _].
    apply elem_of_read_comments in Hin as [Hl _]. congruence.
  - apply list_elem_of_In in Hin.
    pose proof (find_none _ _ Hfind _ Hin) as Hno. simpl in Hno.
    now rewrite String.eqb_refl in Hno.
Qed.

Lemma find_no_comment (t : Tables) (p k : string) :
  (forall it, interactions t !! (p, k) = Some it ->
              ii_interaction_type it <> "comment") ->
  List.find (fun e => String.eqb e.1 k) (read_comments t p) = None.
Proof.
  intros Hno.
  destruct (List.find _ (read_comments t p)) as [[k' it']|] eqn:Hfind;
    [|reflexivity].
  apply find_some in Hfind as [Hin Heq]. simpl in Heq.
  apply String.eqb_eq in Heq as ->.
  apply list_elem_of_In, elem_of_read_comments in Hin as [Hl Hty].
  now destruct (Hno _ Hl).
Qed.

(** A failed [delete_comment] leaves the tables as they were. *)
Lemma delete_comment_failure (t : Tables) (u p k : string) (e : exn)
    (w' : World) :
  delete_comment u p k (up t) = (inl e, w') -> w' = up t.
Proof.
  rewrite delete_comment_up.
  destruct (List.find _ (read_comments t p)) as [c|]; [|congruence].
  destruct (negb _); [congruence|].
  destruct (posts t !! p); discriminate.
Qed.

(** No comment under that id: [NotFoundError]. *)
Lemma delete_comment_absent (t : Tables) (u p k : string) :
  (forall it, interactions t !! (p, k) = Some it ->
              ii_interaction_type it <> "comment") ->
  delete_comment u p k (up t) = (inl (NotFoundError CommentNotFound), up t).
Proof.
  intros Hno. now rewrite delete_comment_up, find_no_comment.
Qed.

(** A comment that was read, asked for by someone else:
    [ValidationError]. *)
Lemma delete_comment_other_user (t : Tables) (u p k : string)
    (it : InteractionItem) :
  (k, it) ∈ read_comments t p ->
  ii_user_id it <> u ->
  delete_comment u p k (up t) = (inl (ValidationError NotOwnComment), up t).
Proof.
  intros Hin Hne. rewrite delete_comment_up, (find_read_comment _ _ _ it Hin).
  simpl. apply String.eqb_neq in Hne. now rewrite Hne.
Qed.

(** A comment that was read, asked for by its author: the item is
    deleted and the counter of the post goes down by 1. *)
Lemma delete_comment_author (t : Tables) (p k : string)
    (it : InteractionItem) (item : PostItem) :
  (k, it) ∈ read_comments t p ->
  posts t !! p = Some item ->
  exists r t',
    delete_comment (ii_user_id it) p k (up t) = (inr r, up t')
    /\ interactions t' = delete (p, k) (interactions t)
    /\ stored_comments_count (up t') p = stored_comments_count (up t) p - 1
    /\ remaining_comments r = stored_comments_count (up t') p.
Proof.
  intros Hin Hp. rewrite delete_comment_up, (find_read_comment _ _ _ it Hin).
  simpl. rewrite String.eqb_refl, Hp. simpl.
  eexists _, _. split; [reflexivity|]. split; [reflexivity|].
  unfold stored_comments_count. simpl. rewrite lookup_alter_eq, Hp. simpl.
  split; lia.
Qed.

(** The last of the 51 comments of the crowded post is stored, and is not
    among the comments read. *)
Lemma crowded_last_comment :
  interactions crowded !! ("p1", comment_id (reading 50) "u1")
  = Some (comment_item (reading 50) "u1" "hi")
  /\ List.find (fun e => String.eqb e.1 (comment_id (reading 50) "u1"))
       (read_comments crowded "p1") = None.
Proof. split; vm_compute; reflexivity. Qed.

(** C8, at a failing input. The author of the 51st comment of a post asks
    for its deletion: the comment is stored under that id with that
    author, yet [delete_comment] raises [NotFoundError] and deletes
    nothing. *)
Theorem delete_comment_author_past_fifty :
  interactions crowded !! ("p1", comment_id (reading 50) "u1")
  = Some (comment_item (reading 50) "u1" "hi")
  /\ delete_comment "u1" "p1" (comment_id (reading 50) "u1") (up crowded)
     = (inl (NotFoundError CommentNotFound), up crowded).
Proof.
  destruct crowded_last_comment as [Hstored Hfind].
  split; [exact Hstored|]. now rewrite delete_comment_up, Hfind.
Qed.

(** C3, at a failing input. A user other than the author asks for the
    deletion of the 51st comment of a post: [delete_comment] raises
    [NotFoundError], not [ValidationError], although the comment is
    stored. *)
Theorem delete_comment_other_past_fifty :
  interactions crowded !! ("p1", comment_id (reading 50) "u1")
  = Some (comment_item (reading 50) "u1" "hi")
  /\ delete_comment "u2" "p1" (comment_id (reading 50) "u1") (up crowded)
     = (inl (NotFoundError CommentNotFound), up crowded).
Proof.
  destruct crowded_last_comment as [Hstored Hfind].
  split; [exact Hstored|]. now rewrite delete_comment_up, Hfind.
Qed.

(** ** Two users and one post *)

Lemma prefix_cons (a b : ascii) (s1 s2 : string) :
  String.prefix (String a s1) (String b s2)
  = if ascii_dec a b then String.prefix s1 s2 else false.
Proof. reflexivity. Qed.

Lemma prefix_hash_free (a b x : string) :
  no_hash a = true -> no_hash b = true ->
  String.prefix (b +:+ "#") (a +:+ "#" +:+ x) = true -> a = b.
Proof.
  revert a. induction b as [|d b IH]; intros [|c a] Ha Hb Hp.
  - reflexivity.
  - rewrite append_nil, append_cons in Hp. rewrite prefix_cons in Hp.
    destruct (ascii_dec "#" c) as [<-|]; [|discriminate].
    simpl in Ha. discriminate.
  - rewrite append_nil, append_cons in Hp.
    change ("#" +:+ x) with (String "#" x) in Hp. rewrite prefix_cons in Hp.
    destruct (ascii_dec d "#") as [->|]; [|discriminate].
    simpl in Hb. discriminate.
  - rewrite !append_cons, prefix_cons in Hp. simpl in Ha, Hb.
    destruct (ascii_dec d c) as [->|]; [|discriminate].
    apply andb_true_iff in Ha as [_ Ha]. apply andb_true_iff in Hb as [_ Hb].
    f_equal. now apply IH.
Qed.

(** The id of a like of [a] does not begin with the like prefix of another
    user [b] when neither id holds a ['#']. *)
Lemma like_id_other_prefix (now p a b : string) (c : option string) :
  a <> b -> no_hash a = true -> no_hash b = true ->
  String.prefix (Interaction.like_prefix b)
    (Interaction.interaction_id (Interaction.new now p a "like" c)) = false.
Proof.
  intros Hne Ha Hb.
  destruct (String.prefix _ _) eqn:Hp; [|reflexivity].
  destruct Hne. apply (prefix_hash_free a b now Ha Hb).
  unfold Interaction.like_prefix, Interaction.new, Interaction.interaction_id
    in Hp.
  rewrite !append_cons, !append_nil in Hp.
  rewrite !prefix_cons in Hp.
  repeat (destruct (ascii_dec _ _) in Hp; [|discriminate]).
  exact Hp.
Qed.

Lemma keyed_like_prefix (k : string) (it : InteractionItem) (u : string) :
  keyed_item k it ->
  String.prefix (Interaction.like_prefix u) k = true ->
  ii_interaction_type it = "like"
  /\ String.prefix (u +:+ "#")
       (ii_user_id it +:+ "#" +:+ ii_created_at it) = true.
Proof.
  intros [-> [Hty|Hty]] Hpre; rewrite Hty in Hpre |- *.
  - split; [reflexivity|].
    unfold Interaction.like_prefix in Hpre.
    rewrite !append_cons, !append_nil, !prefix_cons in Hpre.
    repeat (destruct (ascii_dec _ _) in Hpre; [|discriminate]).
    exact Hpre.
  - unfold Interaction.like_prefix in Hpre.
    rewrite !append_cons, !prefix_cons in Hpre.
    destruct (ascii_dec _ _) in Hpre; discriminate.
Qed.

Lemma no_like_other_added (t : Tables) (p u k : string)
    (it : InteractionItem) :
  no_like t p u ->
  String.prefix (Interaction.like_prefix u) k = false ->
  no_like (with_interaction p k it t) p u.
Proof.
  intros Hno Hp k' it'. unfold with_interaction. simpl. intros Hl.
  destruct (decide (k' = k)) as [->|Hne]; [assumption|].
  rewrite lookup_insert_ne in Hl by congruence. eauto.
Qed.

Lemma one_like_other_added (t : Tables) (p u k0 k : string)
    (it : InteractionItem) :
  one_like t p u k0 ->
  String.prefix (Interaction.like_prefix u) k = false ->
  one_like (with_interaction p k it t) p u k0.
Proof.
  intros ([it0 Hit0] & Hp0 & Honly) Hp. unfold one_like, with_interaction.
  simpl. assert (Hne : k0 <> k) by congruence.
  split; [rewrite lookup_insert_ne by congruence; eauto|].
  split; [assumption|].
  intros k' it' Hl Hp'. destruct (decide (k' = k)) as [->|Hne']; [congruence|].
  rewrite lookup_insert_ne in Hl by congruence. eauto.
Qed.

Lemma one_like_other_removed (t : Tables) (p u k0 k : string) :
  one_like t p u k0 -> k <> k0 ->
  one_like (without_interaction p k t) p u k0.
Proof.
  intros ([it0 Hit0] & Hp0 & Honly) Hne. unfold one_like, without_interaction.
  simpl. split; [rewrite lookup_delete_ne by congruence; eauto|].
  split; [assumption|].
  intros k' it' Hl Hp'.
  destruct (decide (k' = k)) as [->|Hne'].
  - rewrite lookup_delete_eq in Hl. discriminate.
  - rewrite lookup_delete_ne in Hl by congruence. eauto.
Qed.

Lemma no_like_counted (t : Tables) (dl dc : Z) (q p u : string) :
  no_like t p u -> no_like (counted dl dc q t) p u.
Proof. intros H. exact H. Qed.

Lemma one_like_counted (t : Tables) (dl dc : Z) (q p u k : string) :
  one_like t p u k -> one_like (counted dl dc q t) p u k.
Proof. intros H. exact H. Qed.

Lemma posts_counted (t : Tables) (dl dc : Z) (p : string) (item : PostItem) :
  posts t !! p = Some item ->
  posts (counted dl dc p t) !! p = Some (Table.add_counts dl dc item).
Proof. intros H. simpl. now rewrite lookup_alter_eq, H. Qed.

(** C5, as amended. Two distinct users whose ids hold no ['#'], and an
    existing post with [likes_count = 0] on which the like lookup finds
    nothing for any user: [toggle_like] by the first, by the second and by
    the first again answers [liked = true] with count 1, [liked = true]
    with count 2, and [liked = false] with count 1. The second user is seen
    as liking the post before and after the first user's unlike, and the
    first user is seen as not liking it at the end. *)
Theorem like_isolation (t : Tables) (item : PostItem)
    (a b p now1 now2 now3 : string) :
  a <> b -> no_hash a = true -> no_hash b = true ->
  posts t !! p = Some item ->
  default 0 (pi_likes_count item) = 0 ->
  (forall u, fst (get_user_like_status u p (up t)) = inr false) ->
  exists w1 w2 w3,
    toggle_like now1 a p (up t)
    = (inr {| liked := true; likes_count := 1; like_message := LikeAdded |},
       w1)
    /\ toggle_like now2 b p w1
       = (inr {| liked := true; likes_count := 2;
                 like_message := LikeAdded |}, w2)
    /\ fst (get_user_like_status b p w2) = inr true
    /\ toggle_like now3 a p w2
       = (inr {| liked := false; likes_count := 1;
                 like_message := LikeRemoved |}, w3)
    /\ fst (get_user_like_status a p w3) = inr false
    /\ fst (get_user_like_status b p w3) = inr true.
Proof.
  intros Hab Ha Hb Hp Hzero Hnone.
  assert (Hno_a : no_like t p a) by apply status_false_no_like, Hnone.
  assert (Hno_b : no_like t p b) by apply status_false_no_like, Hnone.
  set (likeA := Interaction.new now1 p a "like" None).
  set (likeB := Interaction.new now2 p b "like" None).
  set (t1 := counted 1 0 p
               (with_interaction p (Interaction.interaction_id likeA)
                  (Interaction.to_item likeA) t)).
  set (t2 := counted 1 0 p
               (with_interaction p (Interaction.interaction_id likeB)
                  (Interaction.to_item likeB) t1)).
  set (t3 := counted (-1) 0 p
               (without_interaction p (Interaction.interaction_id likeA) t2)).
  assert (HpA : String.prefix (Interaction.like_prefix a)
                  (Interaction.interaction_id likeA) = true)
    by apply like_id_prefix.
  assert (HpB : String.prefix (Interaction.like_prefix b)
                  (Interaction.interaction_id likeB) = true)
    by apply like_id_prefix.
  assert (HpAB : String.prefix (Interaction.like_prefix b)
                   (Interaction.interaction_id likeA) = false)
    by now apply like_id_other_prefix.
  assert (HpBA : String.prefix (Interaction.like_prefix a)
                   (Interaction.interaction_id likeB) = false)
    by (apply like_id_other_prefix; congruence).
  assert (H1a : one_like t1 p a (Interaction.interaction_id likeA))
    by now apply one_like_counted, no_like_added.
  assert (H1b : no_like t1 p b)
    by now apply no_like_counted, no_like_other_added.
  assert (H2b : one_like t2 p b (Interaction.interaction_id likeB))
    by now apply one_like_counted, no_like_added.
  assert (H2a : one_like t2 p a (Interaction.interaction_id likeA))
    by now apply one_like_counted, one_like_other_added.
  assert (H3a : no_like t3 p a)
    by now apply no_like_counted, one_like_removed.
  assert (H3b : one_like t3 p b (Interaction.interaction_id likeB)).
  { apply one_like_counted, one_like_other_removed; [assumption|].
    intros Heq. rewrite Heq in HpAB. congruence. }
  assert (Hp1 : posts t1 !! p = Some (Table.add_counts 1 0 item))
    by now apply posts_counted.
  assert (Hp2 : posts t2 !! p
                = Some (Table.add_counts 1 0 (Table.add_counts 1 0 item)))
    by now apply posts_counted.
  exists (up t1), (up t2), (up t3).
  split.
  { rewrite toggle_like_up, Hp.
    apply head_likes_of_None in Hno_a as ->. now rewrite Hzero. }
  split.
  { rewrite toggle_like_up, Hp1.
    apply head_likes_of_None in H1b as ->. simpl. now rewrite Hzero. }
  split; [exact (status_true_one_like b p _ t2 H2b)|].
  split.
  { rewrite toggle_like_up, Hp2.
    destruct (head_likes_of_one _ _ _ _ H2a) as (it & _ & ->).
    simpl. now rewrite Hzero. }
  split; [now apply status_false_no_like|].
  exact (status_true_one_like b p _ t3 H3b).
Qed.

Lemma like_isolation_witness :
  exists w1 w2 w3,
    toggle_like "2024-02-01T10:00:01" "u1" "p1" (up t0)
    = (inr {| liked := true; likes_count := 1; like_message := LikeAdded |},
       w1)
    /\ toggle_like "2024-02-01T10:00:02" "u2" "p1" w1
       = (inr {| liked := true; likes_count := 2;
                 like_message := LikeAdded |}, w2)
    /\ fst (get_user_like_status "u2" "p1" w2) = inr true
    /\ toggle_like "2024-02-01T10:00:03" "u1" "p1" w2
       = (inr {| liked := false; likes_count := 1;
                 like_message := LikeRemoved |}, w3)
    /\ fst (get_user_like_status "u1" "p1" w3) = inr false
    /\ fst (get_user_like_status "u2" "p1" w3) = inr true.
Proof.
  apply (like_isolation t0 photo "u1" "u2" "p1"); by_eval.
Defined.

(** C5 as stated fails when an id holds a ['#']: after user [a#b] has liked
    the post, the like lookup of user [a] finds that like, so the toggle of
    [a] removes it and answers [liked = false] with count 0. *)
Lemma like_isolation_hash_ids :
  "a#b" <> "a"
  /\ is_Some (users t_hash !! "a#b") /\ is_Some (users t_hash !! "a")
  /\ posts t_hash !! "p1" = Some photo
  /\ pi_likes_count photo = Some 0
  /\ interactions t_hash = ∅
  /\ fst (toggle_like "2024-02-01T10:00:01" "a#b" "p1" (up t_hash))
     = inr {| liked := true; likes_count := 1; like_message := LikeAdded |}
  /\ fst (toggle_like "2024-02-01T10:00:02" "a" "p1"
            (snd (toggle_like "2024-02-01T10:00:01" "a#b" "p1" (up t_hash))))
     = inr {| liked := false; likes_count := 0;
              like_message := LikeRemoved |}.
Proof. repeat split; by_eval. Qed.

(** C4 as stated fails when the clock reads what it read for an earlier
    comment of the same user on the same post: the input is valid, the
    call succeeds and raises the counter, but the item replaces the
    earlier one and the table holds as many items as before. *)
Lemma add_comment_same_reading :
  strip "second" <> "" /\ len (strip "second") <= 500
  /\ is_Some (posts t_commented !! "p1")
  /\ is_Some (users t_commented !! "u1")
  /\ exists r t',
       add_comment "2024-02-01T10:00:01" "u1" "p1" (Some "second")
         (up t_commented) = (inr r, up t')
       /\ size (interactions t') = size (interactions t_commented)
       /\ interactions t' !! ("p1", comment_id "2024-02-01T10:00:01" "u1")
          = Some (comment_item "2024-02-01T10:00:01" "u1" "second")
       /\ stored_comments_count (up t_commented) "p1" = 1
       /\ stored_comments_count (up t') "p1" = 2.
Proof.
  repeat split; try by_eval.
  eexists _, _. split; [vm_compute; reflexivity|].
  repeat split; by_eval.
Qed.

(** ** Toggle alternation, from the stored records *)

(** In a store whose items have the ids the service gives them and whose
    user ids hold no ['#'], the like lookup of a user finds nothing under
    a post that has no item of type [like] with that [user_id]. *)
Lemma no_like_by_fields (t : Tables) (u p : string) :
  keyed t -> plain_ids t -> no_hash u = true ->
  (forall k it, interactions t !! (p, k) = Some it ->
     ii_interaction_type it = "like" -> ii_user_id it <> u) ->
  no_like t p u.
Proof.
  intros Hkeyed Hplain Hu Hnone k it Hl.
  destruct (String.prefix (Interaction.like_prefix u) k) eqn:Hpre;
    [|reflexivity].
  destruct (keyed_like_prefix _ _ _ (Hkeyed _ _ _ Hl) Hpre) as [Hty Hpre'].
  destruct (Hnone _ _ Hl Hty).
  exact (prefix_hash_free (ii_user_id it) u (ii_created_at it)
           (Hplain _ _ _ Hl) Hu Hpre').
Qed.

(** C1, as amended. Toggle alternation. The store holds Interactions
    under the ids the service gives them ([type#user_id#created_at]) and
    no user id, the caller's included, holds a ['#']. For such a user
    and an existing post that has no Interaction of type [like] with
    that [user_id] at the start, the call of [toggle_like] that follows
    any number of earlier calls (so the [n]-th call, [n] being one more
    than that number) succeeds and answers [liked = (n is odd)]; it
    moves the stored [likes_count] by [+1] when it likes and by [-1]
    when it unlikes, reports the stored value, and after an even number
    of calls the stored value is the initial one. *)
Theorem toggle_like_alternates (t : Tables) (item : PostItem) (u p : string)
    (before : list string) (now : string) :
  posts t !! p = Some item ->
  keyed t -> plain_ids t -> no_hash u = true ->
  (forall k it, interactions t !! (p, k) = Some it ->
     ii_interaction_type it = "like" -> ii_user_id it <> u) ->
  let w := after_toggles before u p (up t) in
  let n := S (length before) in
  exists res w',
    toggle_like now u p w = (inr res, w')
    /\ liked res = Nat.odd n
    /\ stored_likes_count w' p
       = stored_likes_count w p + (if liked res then 1 else -1)
    /\ likes_count res = stored_likes_count w' p
    /\ (Nat.even n = true ->
        stored_likes_count w' p = stored_likes_count (up t) p).
Proof.
  intros Hpost Hkeyed Hplain Hu Hnone.
  apply (toggle_like_alternates_by_lookup t item u p before now Hpost).
  apply status_false_no_like. now apply no_like_by_fields.
Qed.

Lemma toggle_like_alternates_witness :
  exists res w',
    toggle_like "2024-02-01T10:00:03" "u1" "p1"
      (after_toggles ["2024-02-01T10:00:02"] "u1" "p1" (up t_drifted))
    = (inr res, w')
    /\ liked res = false
    /\ stored_likes_count w' "p1" = 5.
Proof.
  assert (Hpost : posts t_drifted !! "p1" = Some (Table.add_counts 5 0 photo))
    by by_eval.
  assert (Hkeyed : keyed t_drifted).
  { intros p k it Hl.
    destruct (decide ((p, k) = ("p1", "like#u2#2024-02-01T10:00:01")))
      as [[= -> ->]|Hne].
    - vm_compute in Hl. injection Hl as <-. split; [reflexivity|now left].
    - unfold t_drifted in Hl. simpl in Hl.
      rewrite lookup_insert_ne in Hl by congruence. discriminate. }
  assert (Hplain : plain_ids t_drifted).
  { intros p k it Hl.
    destruct (decide ((p, k) = ("p1", "like#u2#2024-02-01T10:00:01")))
      as [[= -> ->]|Hne].
    - vm_compute in Hl. injection Hl as <-. reflexivity.
    - unfold t_drifted in Hl. simpl in Hl.
      rewrite lookup_insert_ne in Hl by congruence. discriminate. }
  assert (Hnone : forall k it,
             interactions t_drifted !! ("p1", k) = Some it ->
             ii_interaction_type it = "like" -> ii_user_id it <> "u1").
  { intros k it Hl _.
    destruct (decide (k = "like#u2#2024-02-01T10:00:01")) as [->|Hne].
    - vm_compute in Hl. injection Hl as <-. discriminate.
    - unfold t_drifted in Hl. simpl in Hl.
      rewrite lookup_insert_ne in Hl by congruence. discriminate. }
  destruct (toggle_like_alternates t_drifted (Table.add_counts 5 0 photo)
              "u1" "p1" ["2024-02-01T10:00:02"] "2024-02-01T10:00:03"
              Hpost Hkeyed Hplain eq_refl Hnone)
    as (res & w' & Hrun & Hliked & _ & _ & Heven).
  exists res, w'. split; [exact Hrun|]. split; [exact Hliked|].
  rewrite Heven; reflexivity.
Defined.

Lemma interactions_t_ab :
  interactions t_ab
  = {[ ("p1", "like#a#b#2024-02-01T10:00:01")
       := {| ii_user_id := "a#b"; ii_interaction_type := "like";
             ii_created_at := "2024-02-01T10:00:01";
             ii_content := None |} ]}.
Proof. vm_compute. reflexivity. Qed.

(** C1 as stated fails when an id holds a ['#']. User [a#b] has liked the
    post and user [a] has not: the only Interaction of the post is the
    like of [a#b], stored under the id the service built for it. The
    first [toggle_like] of [a] is call number 1, yet it answers
    [liked = false] and moves [likes_count] from 1 to 0, because the
    lookup by [like#a#] finds the like of [a#b]. *)
Lemma toggle_like_alternates_hash_ids :
  snd (toggle_like "2024-02-01T10:00:01" "a#b" "p1" (up t_hash)) = up t_ab
  /\ is_Some (posts t_ab !! "p1")
  /\ keyed t_ab
  /\ (forall k it, interactions t_ab !! ("p1", k) = Some it ->
        ii_interaction_type it = "like" /\ ii_user_id it = "a#b")
  /\ "a#b" <> "a"
  /\ stored_likes_count (up t_ab) "p1" = 1
  /\ exists w',
       toggle_like "2024-02-01T10:00:02" "a" "p1" (up t_ab)
       = (inr {| liked := false; likes_count := 0;
                 like_message := LikeRemoved |}, w')
       /\ Nat.odd 1 = true
       /\ stored_likes_count w' "p1" = 0.
Proof.
  split; [by_eval|]. split; [by_eval|]. split.
  { intros p k it Hl. rewrite interactions_t_ab in Hl.
    apply lookup_singleton_Some in Hl as [[= <- <-] <-].
    split; [reflexivity|now left]. }
  split.
  { intros k it Hl. rewrite interactions_t_ab in Hl.
    apply lookup_singleton_Some in Hl as [_ <-]. now split. }
  split; [discriminate|]. split; [by_eval|].
  eexists. split; [vm_compute; reflexivity|]. split; by_eval.
Qed.

(** ** Reading the likes and comments of a post *)

Lemma likes_with_users_up (l : list Interaction.t) (t : Tables) :
  likes_with_users l (up t) = (inr (omap (like_entry_of t) l), up t).
Proof.
  induction l as [|like l IH]; [reflexivity|].
  simpl likes_with_users. unfold bind. rewrite User_get_by_id_up, IH.
  simpl omap. unfold like_entry_of at 2 3.
  now destruct (users t !! Interaction.user_id like).
Qed.

Lemma comments_with_users_up (l : list Interaction.t) (t : Tables) :
  comments_with_users l (up t) = (inr (omap (comment_entry_of t) l), up t).
Proof.
  induction l as [|c l IH]; [reflexivity|].
  simpl comments_with_users. unfold bind. rewrite User_get_by_id_up, IH.
  simpl omap. unfold comment_entry_of at 2 3.
  now destruct (users t !! Interaction.user_id c).
Qed.

Lemma get_post_likes_up (p : string) (limit : Z) (t : Tables)
    (item : PostItem) :
  posts t !! p = Some item -> 1 <= limit ->
  get_post_likes p limit (up t)
  = (inr {| likes :=
              omap (like_entry_of t)
                (map (Interaction.of_item p)
                   (Table.query_items t p None limit (Some "like")));
            likes_shown :=
              Z.of_nat
                (length
                   (omap (like_entry_of t)
                      (map (Interaction.of_item p)
                         (Table.query_items t p None limit (Some "like")))));
            total_likes := default 0 (pi_likes_count item) |},
     up t).
Proof.
  intros Hp Hl. unfold get_post_likes, bind.
  rewrite Post_get_by_id_up, Hp. simpl.
  rewrite get_post_interactions_up.
  replace (limit <? 1) with false by lia. cbv iota.
  now rewrite likes_with_users_up.
Qed.

Lemma get_post_comments_up (p : string) (limit : Z) (t : Tables)
    (item : PostItem) :
  posts t !! p = Some item -> 1 <= limit ->
  get_post_comments p limit (up t)
  = (inr {| comments :=
              sort_by e_created_at
                (omap (comment_entry_of t)
                   (map (Interaction.of_item p)
                      (Table.query_items t p None limit (Some "comment"))));
            comments_shown :=
              Z.of_nat
                (length
                   (sort_by e_created_at
                      (omap (comment_entry_of t)
                         (map (Interaction.of_item p)
                            (Table.query_items t p None limit
                               (Some "comment"))))));
            total_comments := default 0 (pi_comments_count item) |},
     up t).
Proof.
  intros Hp Hl. unfold get_post_comments, bind.
  rewrite Post_get_by_id_up, Hp. simpl.
  rewrite get_post_interactions_up.
  replace (limit <? 1) with false by lia. cbv iota.
  now rewrite comments_with_users_up.
Qed.

Lemma created_le_trans (x y z : comment_entry) :
  created_le x y -> created_le y z -> created_le x z.
Proof.
  unfold created_le. rewrite <- !Is_true_true.
  change (String.le (e_created_at x) (e_created_at y) ->
          String.le (e_created_at y) (e_created_at z) ->
          String.le (e_created_at x) (e_created_at z)).
  intros Hxy Hyz. now transitivity (e_created_at y).
Qed.

Lemma sort_by_created (l : list comment_entry) :
  StronglySorted created_le (sort_by e_created_at l).
Proof.
  apply Sorted_StronglySorted.
  - intros x y z. apply created_le_trans.
  - apply (sort_by_sorted e_created_at).
Qed.

Lemma elem_of_query_type (t : Tables) (p : string) (limit : Z)
    (ty k : string) (it : InteractionItem) :
  (k, it) ∈ Table.query_items t p None limit (Some ty) ->
  interactions t !! (p, k) = Some it /\ ii_interaction_type it = ty.
Proof.
  unfold Table.query_items.
  rewrite list_elem_of_In, filter_In, <- list_elem_of_In.
  intros [Hin Hty]. split.
  - apply elem_of_partition. now apply (subseteq_take (Z.to_nat limit)).
  - now apply String.eqb_eq in Hty.
Qed.

Lemma query_type_all (t : Tables) (p : string) (limit : Z)
    (ty k : string) (it : InteractionItem) :
  Z.of_nat (length (partition t p)) <= limit ->
  interactions t !! (p, k) = Some it ->
  ii_interaction_type it = ty ->
  (k, it) ∈ Table.query_items t p None limit (Some ty).
Proof.
  intros Hlen Hl Hty. unfold Table.query_items.
  rewrite take_ge by lia.
  rewrite list_elem_of_In, filter_In, <- list_elem_of_In. split.
  - now apply elem_of_partition.
  - simpl. rewrite Hty. apply String.eqb_refl.
Qed.

(** C6. Whatever the store holds and answers, a list of comments that
    [get_post_comments] returns is in non-decreasing order of
    [created_at]. On a store that serves every call, for an existing post
    and a limit of at least 1, it returns such a list, and the list is a
    rearrangement of the entries of the comments read, in which nothing
    is lost or repeated: the comments read are the items of type
    [comment] among the first [limit] items of the post, and a comment
    has an entry when its author exists. So each entry of the list comes
    from a stored comment of the post, and when the post has no more
    items than the limit every stored comment whose author exists is in
    the list. *)
Theorem get_post_comments_sorted :
  (forall (p : string) (limit : Z) (w w' : World) (r : comments_result),
     get_post_comments p limit w = (inr r, w') ->
     StronglySorted created_le (comments r))
  /\ (forall (t : Tables) (p : string) (limit : Z),
        is_Some (posts t !! p) -> 1 <= limit ->
        exists r,
          get_post_comments p limit (up t) = (inr r, up t)
          /\ StronglySorted created_le (comments r)
          /\ Permutation (comments r)
               (omap (comment_entry_of t)
                  (map (Interaction.of_item p)
                     (List.filter
                        (fun e => String.eqb (ii_interaction_type e.2)
                                    "comment")
                        (take (Z.to_nat limit) (partition t p)))))
          /\ (forall e, e ∈ comments r ->
                exists k it user,
                  interactions t !! (p, k) = Some it
                  /\ ii_interaction_type it = "comment"
                  /\ users t !! ii_user_id it = Some user
                  /\ e = {| e_interaction_id := k;
                             e_user_id := ii_user_id it;
                             e_username := ui_username user;
                             e_profile_image := ui_profile_image user;
                             e_content := ii_content it;
                             e_created_at := ii_created_at it |})
          /\ (Z.of_nat (length (partition t p)) <= limit ->
              forall k it user,
                interactions t !! (p, k) = Some it ->
                ii_interaction_type it = "comment" ->
                users t !! ii_user_id it = Some user ->
                {| e_interaction_id := k;
                   e_user_id := ii_user_id it;
                   e_username := ui_username user;
                   e_profile_image := ui_profile_image user;
                   e_content := ii_content it;
                   e_created_at := ii_created_at it |} ∈ comments r)).
Proof.
  split.
  - intros p limit w w' r. unfold get_post_comments, bind, raise, ret.
    destruct (Post.get_by_id p w) as [[e|[post|]] w1]; try discriminate.
    destruct (Interaction.get_post_interactions _ _ _ w1) as [[e|cs] w2];
      [discriminate|].
    destruct (comments_with_users cs w2) as [[e|es] w3]; [discriminate|].
    intros [= <- _]. apply sort_by_created.
  - intros t p limit [item Hp] Hl.
    rewrite (get_post_comments_up _ _ _ _ Hp Hl). eexists.
    split; [reflexivity|]. simpl.
    split; [apply sort_by_created|].
    split; [apply sort_by_perm|]. split.
    + intros e He. apply elem_of_sort_by in He.
      apply list_elem_of_omap in He as (c & Hin & He).
      apply list_elem_of_fmap in Hin as ([k it] & -> & Hin).
      apply elem_of_query_type in Hin as [Hl' Hty].
      unfold comment_entry_of in He. simpl in He.
      destruct (users t !! ii_user_id it) as [user|] eqn:Hu; [|discriminate].
      injection He as <-. exists k, it, user. auto.
    + intros Hlen k it user Hl' Hty Hu.
      apply elem_of_sort_by, list_elem_of_omap.
      exists (Interaction.of_item p (k, it)). split.
      * apply list_elem_of_fmap. exists (k, it). split; [reflexivity|].
        now apply query_type_all.
      * unfold comment_entry_of. simpl. now rewrite Hu.
Qed.

Lemma get_post_comments_thread :
  get_post_comments "p1" 50 (up t_thread)
  = (inr {| comments :=
              [ {| e_interaction_id := comment_id "2024-02-01T10:00:01" "u2";
                   e_user_id := "u2"; e_username := "bob";
                   e_profile_image := None; e_content := Some "first";
                   e_created_at := "2024-02-01T10:00:01" |};
                {| e_interaction_id := comment_id "2024-02-01T10:00:02" "u1";
                   e_user_id := "u1"; e_username := "alice";
                   e_profile_image := Some "alice.png";
                   e_content := Some "second";
                   e_created_at := "2024-02-01T10:00:02" |};
                {| e_interaction_id := comment_id "2024-02-01T10:00:03" "u2";
                   e_user_id := "u2"; e_username := "bob";
                   e_profile_image := None; e_content := Some "third";
                   e_created_at := "2024-02-01T10:00:03" |} ];
            comments_shown := 3;
            total_comments := 3 |},
     up t_thread).
Proof. vm_compute. reflexivity. Qed.

Lemma get_post_comments_sorted_witness :
  map fst (partition t_thread "p1")
  = [ comment_id "2024-02-01T10:00:02" "u1";
      comment_id "2024-02-01T10:00:01" "u2";
      comment_id "2024-02-01T10:00:03" "u2" ]
  /\ exists r,
       get_post_comments "p1" 50 (up t_thread) = (inr r, up t_thread)
       /\ StronglySorted created_le (comments r)
       /\ map e_content (comments r)
          = [Some "first"; Some "second"; Some "third"]
       /\ map e_username (comments r) = ["bob"; "alice"; "bob"].
Proof.
  split; [vm_compute; reflexivity|].
  assert (Hpost : is_Some (posts t_thread !! "p1")) by by_eval.
  assert (Hlimit : 1 <= 50) by lia.
  destruct (proj2 get_post_comments_sorted t_thread "p1" 50 Hpost Hlimit)
    as (r & Hr & Hsorted & _).
  exists r. split; [exact Hr|]. split; [exact Hsorted|].
  rewrite get_post_comments_thread in Hr. injection Hr as <-.
  split; reflexivity.
Defined.

(** ** The likes of a post *)

(** What [get_post_likes] returns for an existing post and a limit of at
    least 1, on a store that serves every call: a list and two numbers.
    Each entry of the list comes from an item of type [like] stored under
    the post, whose user exists, and carries that user's [username] and
    [profile_image]; when the post has no more items than the limit, each
    such item has its entry. One number is the length of the list, the
    other is the [likes_count] stored with the post. The two can differ. *)
Lemma get_post_likes_two_counts :
  (forall (t : Tables) (p : string) (limit : Z) (item : PostItem),
     posts t !! p = Some item -> 1 <= limit ->
     exists r,
       get_post_likes p limit (up t) = (inr r, up t)
       /\ total_likes r = stored_likes_count (up t) p
       /\ likes_shown r = Z.of_nat (length (likes r))
       /\ (forall e, e ∈ likes r ->
             exists k it user,
               interactions t !! (p, k) = Some it
               /\ ii_interaction_type it = "like"
               /\ users t !! ii_user_id it = Some user
               /\ e = {| l_user_id := ii_user_id it;
                          l_username := ui_username user;
                          l_profile_image := ui_profile_image user;
                          l_created_at := ii_created_at it |})
       /\ (Z.of_nat (length (partition t p)) <= limit ->
           forall k it user,
             interactions t !! (p, k) = Some it ->
             ii_interaction_type it = "like" ->
             users t !! ii_user_id it = Some user ->
             {| l_user_id := ii_user_id it;
                l_username := ui_username user;
                l_profile_image := ui_profile_image user;
                l_created_at := ii_created_at it |} ∈ likes r))
  /\ (exists (t : Tables) (p : string) (r : likes_result),
        get_post_likes p 50 (up t) = (inr r, up t)
        /\ likes_shown r <> total_likes r).
Proof.
  split.
  - intros t p limit item Hp Hl.
    rewrite (get_post_likes_up _ _ _ _ Hp Hl). eexists. split; [reflexivity|].
    simpl. split; [now rewrite (stored_likes_count_up _ _ _ Hp)|].
    split; [reflexivity|]. split.
    + intros e He. apply list_elem_of_omap in He as (like & Hin & He).
      apply list_elem_of_fmap in Hin as ([k it] & -> & Hin).
      apply elem_of_query_type in Hin as [Hl' Hty].
      unfold like_entry_of in He. simpl in He.
      destruct (users t !! ii_user_id it) as [user|] eqn:Hu; [|discriminate].
      injection He as <-. exists k, it, user. auto.
    + intros Hlen k it user Hl' Hty Hu.
      apply list_elem_of_omap. exists (Interaction.of_item p (k, it)). split.
      * apply list_elem_of_fmap. exists (k, it). split; [reflexivity|].
        now apply query_type_all.
      * unfold like_entry_of. simpl. now rewrite Hu.
  - exists t_drifted, "p1". eexists. split.
    + rewrite (get_post_likes_up "p1" 50 t_drifted
                 (Table.add_counts 5 0 photo)) by by_eval.
      reflexivity.
    + by_eval.
Qed.

Lemma get_post_likes_two_counts_witness :
  exists r,
    get_post_likes "p1" 50 (up t_drifted) = (inr r, up t_drifted)
    /\ total_likes r = 5
    /\ likes_shown r = 1.
Proof.
  destruct (proj1 get_post_likes_two_counts t_drifted "p1" 50
              (Table.add_counts 5 0 photo))
    as (r & Hr & Htotal & Hshown & _); [by_eval | lia |].
  exists r. split; [exact Hr|]. split.
  - rewrite Htotal. reflexivity.
  - rewrite (get_post_likes_up "p1" 50 t_drifted
               (Table.add_counts 5 0 photo)) in Hr by by_eval.
    injection Hr as <-. reflexivity.
Defined.

(** ** A like behind fifty comments *)

Lemma busy_reached :
  toggle_like "2024-03-01T10:01:00" "u2" "p1" (up crowded)
  = (inr {| liked := true; likes_count := 1; like_message := LikeAdded |},
     up busy).
Proof.
  rewrite toggle_like_up.
  replace (posts crowded !! "p1") with (Some (Table.add_counts 0 51 photo))
    by (vm_compute; reflexivity).
  replace (head (likes_of crowded "p1" "u2"))
    with (@None (string * InteractionItem)) by (vm_compute; reflexivity).
  reflexivity.
Qed.

(** C9, at a failing input. The post has 51 comments and then user u2
    likes it: [toggle_like] answers [liked = true] with count 1, the like
    is stored, its user exists and [get_user_like_status] says [True].
    Yet [get_post_likes] with the default limit of 50 returns an empty
    list beside [total_likes = 1]: the query reads the first 50 items of
    the post, all of them comments, and the filter on the type is applied
    to those only. With a limit of 52 the like is listed. *)
Theorem get_post_likes_misses_like :
  toggle_like "2024-03-01T10:01:00" "u2" "p1" (up crowded)
  = (inr {| liked := true; likes_count := 1; like_message := LikeAdded |},
     up busy)
  /\ interactions busy !! ("p1", "like#u2#2024-03-01T10:01:00")
     = Some {| ii_user_id := "u2"; ii_interaction_type := "like";
               ii_created_at := "2024-03-01T10:01:00";
               ii_content := None |}
  /\ users busy !! "u2" = Some bob
  /\ get_user_like_status "u2" "p1" (up busy) = (inr true, up busy)
  /\ get_post_likes "p1" 50 (up busy)
     = (inr {| likes := []; likes_shown := 0; total_likes := 1 |}, up busy)
  /\ get_post_likes "p1" 52 (up busy)
     = (inr {| likes := [ {| l_user_id := "u2"; l_username := "bob";
                             l_profile_image := None;
                             l_created_at := "2024-03-01T10:01:00" |} ];
               likes_shown := 1; total_likes := 1 |}, up busy).
Proof.
  split; [exact busy_reached|].
  split; [vm_compute; reflexivity|].
  split; [vm_compute; reflexivity|].
  split.
  { rewrite get_user_like_status_up. f_equal; vm_compute; reflexivity. }
  assert (Hpost : posts busy !! "p1"
                  = Some (Table.add_counts 1 0 (Table.add_counts 0 51 photo)))
    by (vm_compute; reflexivity).
  split.
  - rewrite (get_post_likes_up "p1" 50 busy _ Hpost) by lia.
    f_equal; vm_compute; reflexivity.
  - rewrite (get_post_likes_up "p1" 52 busy _ Hpost) by lia.
    f_equal; vm_compute; reflexivity.
Qed.

(** ** Failures of the store *)

Lemma served_refl (w : World) : served w w.
Proof. exists 0%nat. now rewrite drop_0, take_0. Qed.

Lemma served_trans (w1 w2 w3 : World) :
  served w1 w2 -> served w2 w3 -> served w1 w3.
Proof.
  intros (k1 & Hd1 & Hf1) (k2 & Hd2 & Hf2). exists (k1 + k2)%nat. split.
  - now rewrite Hd2, Hd1, drop_drop.
  - rewrite <- take_take_drop. apply Forall_app. split; [assumption|].
    now rewrite <- Hd1.
Qed.

Lemma propagates_ret {A} (a : A) : propagates (ret a).
Proof. intros w a' w' [= _ <-]. apply served_refl. Qed.

Lemma propagates_raise {A} (e : exn) : propagates (@raise A e).
Proof. intros w a w' H. discriminate. Qed.

Lemma propagates_bind {A B} (m : M A) (k : A -> M B) :
  propagates m -> (forall a, propagates (k a)) -> propagates (bind m k).
Proof.
  intros Hm Hk w b w'. unfold bind.
  destruct (m w) as [[e|a] w1] eqn:Hrun; [discriminate|].
  intros Hrun'. apply (served_trans _ w1); [now apply (Hm _ a)|].
  now apply (Hk a _ b).
Qed.

Lemma propagates_store_call {A} (f : Tables -> (exn + A) * Tables) :
  propagates (store_call f).
Proof.
  intros [t pl] a w'. unfold store_call. simpl.
  destruct pl as [|[text|] rest]; [| discriminate |];
    destruct (f t) as [r t']; intros [= -> <-].
  - exists 0%nat. simpl. split; [reflexivity|constructor].
  - exists 1%nat. simpl. split; [now rewrite drop_0|].
    rewrite take_0. now repeat constructor.
Qed.

Lemma propagates_monitor {A} (op : string) (m : M A) :
  propagates m -> propagates (monitor_database_operation op m).
Proof.
  intros Hm w a w'. unfold monitor_database_operation, try_except.
  destruct (m w) as [[e|a'] w1] eqn:Hrun.
  - destruct (mentions_store e); discriminate.
  - intros [= <- <-]. now apply (Hm _ a').
Qed.

(** Breaks an operation down into its calls to the store. *)
Ltac propagate :=
  repeat first
    [ apply propagates_ret
    | apply propagates_raise
    | apply propagates_store_call
    | apply propagates_monitor
    | apply propagates_bind; [|intros ?]
    | match goal with
      | |- propagates (match ?x with _ => _ end) => destruct x
      end
    | progress cbv zeta ].

Lemma propagates_Post_get_by_id (p : string) : propagates (Post.get_by_id p).
Proof. unfold Post.get_by_id, get_table, Table.get_post. propagate. Qed.

Lemma propagates_User_get_by_id (u : string) : propagates (User.get_by_id u).
Proof. unfold User.get_by_id, get_table, Table.get_user. propagate. Qed.

Lemma propagates_update_counts (post : Post.t) (dl dc : Z) :
  propagates (Post.update_counts post dl dc).
Proof.
  unfold Post.update_counts, get_table, Table.update_post_counts. propagate.
Qed.

Lemma propagates_save (i : Interaction.t) : propagates (Interaction.save i).
Proof.
  unfold Interaction.save, get_table, Table.put_interaction. propagate.
Qed.

Lemma propagates_delete (i : Interaction.t) :
  propagates (Interaction.delete i).
Proof.
  unfold Interaction.delete, get_table, Table.delete_interaction. propagate.
Qed.

Lemma propagates_get_user_like (p u : string) :
  propagates (Interaction.get_user_like p u).
Proof.
  unfold Interaction.get_user_like, get_table, Table.query. propagate.
Qed.

Lemma propagates_delete_like (p u : string) :
  propagates (Interaction.delete_like p u).
Proof.
  unfold Interaction.delete_like. apply propagates_bind;
    [apply propagates_get_user_like|].
  intros [like|]; unfold get_table, Table.delete_interaction; propagate.
Qed.

Lemma propagates_get_post_interactions (p : string) (ty : option string)
    (limit : Z) :
  propagates (Interaction.get_post_interactions p ty limit).
Proof.
  unfold Interaction.get_post_interactions, get_table, Table.query.
  propagate.
Qed.

Lemma propagates_toggle_like (now u p : string) :
  propagates (toggle_like now u p).
Proof.
  unfold toggle_like. apply propagates_monitor.
  apply propagates_bind; [apply propagates_Post_get_by_id|].
  intros [post|]; [|apply propagates_raise].
  apply propagates_bind; [apply propagates_get_user_like|].
  intros [like|].
  - apply propagates_bind; [apply propagates_delete_like|]. intros _.
    apply propagates_bind; [apply propagates_update_counts|]. intros ?.
    apply propagates_ret.
  - cbv zeta. apply propagates_bind; [apply propagates_save|]. intros _.
    apply propagates_bind; [apply propagates_update_counts|]. intros ?.
    apply propagates_ret.
Qed.

Lemma propagates_add_comment (now u p : string) (c : option string) :
  propagates (add_comment now u p c).
Proof.
  unfold add_comment. apply propagates_monitor.
  destruct c as [c|]; [|apply propagates_raise].
  destruct (_ || _); [apply propagates_raise|]. cbv zeta.
  destruct (_ >? _); [apply propagates_raise|].
  apply propagates_bind; [apply propagates_Post_get_by_id|].
  intros [post|]; [|apply propagates_raise].
  apply propagates_bind; [apply propagates_User_get_by_id|].
  intros [user|]; [|apply propagates_raise].
  cbv zeta. apply propagates_bind; [apply propagates_save|]. intros _.
  apply propagates_bind; [apply propagates_update_counts|]. intros ?.
  apply propagates_ret.
Qed.

Lemma propagates_delete_comment (u p k : string) :
  propagates (delete_comment u p k).
Proof.
  unfold delete_comment.
  apply propagates_bind; [apply propagates_get_post_interactions|].
  intros cs. destruct (List.find _ cs) as [c|]; [|apply propagates_raise].
  destruct (negb _); [apply propagates_raise|].
  apply propagates_bind; [apply propagates_delete|]. intros _.
  apply propagates_bind; [apply propagates_Post_get_by_id|].
  intros [post|]; [|apply propagates_ret].
  apply propagates_bind; [apply propagates_update_counts|]. intros ?.
  apply propagates_ret.
Qed.

(** C10. [get_user_like_status] returns a boolean in every world; when the
    lookup of the like raises, whatever the exception, the answer is
    [False]. The write operations let store failures through: they return
    normally only when every store call they made was served, and a
    failure of their first store call is raised to the caller. The status
    lookup does return normally from a world whose store call failed. *)
Theorem get_user_like_status_never_raises :
  (forall (u p : string) (w : World),
     exists b w', get_user_like_status u p w = (inr b, w'))
  /\ (forall (u p : string) (w w' : World) (e : exn),
        Interaction.get_user_like p u w = (inl e, w') ->
        get_user_like_status u p w = (inr false, w'))
  /\ (forall now u p, propagates (toggle_like now u p))
  /\ (forall now u p c, propagates (add_comment now u p c))
  /\ (forall u p k, propagates (delete_comment u p k))
  /\ (forall now u p t,
        exists e, fst (toggle_like now u p (throttled t)) = inl e)
  /\ (forall u p k t,
        exists e, fst (delete_comment u p k (throttled t)) = inl e)
  /\ (forall u p t,
        get_user_like_status u p (throttled t) = (inr false, up t)
        /\ ~ served (throttled t) (up t)).
Proof.
  split.
  { intros u p w. unfold get_user_like_status, try_except, bind.
    destruct (Interaction.get_user_like p u w) as [[e|like] w']; eauto. }
  split.
  { intros u p w w' e H. unfold get_user_like_status, try_except, bind.
    now rewrite H. }
  split; [exact propagates_toggle_like|].
  split; [exact propagates_add_comment|].
  split; [exact propagates_delete_comment|].
  split.
  { intros now u p t. unfold toggle_like, monitor_database_operation,
      try_except, bind, Post.get_by_id, get_table, store_call. simpl.
    eauto. }
  split.
  { intros u p k t. unfold delete_comment, bind,
      Interaction.get_post_interactions, get_table, store_call. simpl. eauto. }
  intros u p t. split; [reflexivity|].
  intros (k & Hd & Hf). simpl in Hd, Hf.
  destruct k as [|k]; [discriminate|].
  simpl in Hf. inversion Hf. discriminate.
Qed.

Lemma get_user_like_status_never_raises_witness :
  get_user_like_status "u1" "p1" (throttled t0) = (inr false, up t0).
Proof.
  apply (proj1 (proj2 get_user_like_status_never_raises) "u1" "p1"
           (throttled t0) (up t0)
           (BotoError "ProvisionedThroughputExceededException")).
  reflexivity.
Defined.

(** * Further properties *)

(** Closes a goal about concrete data, arithmetic included. *)
Ltac by_calc := first [ by_eval | lia | vm_compute; lia ].

(** ** Deleting a comment, continued *)

(** X1. On a store that serves every call, [delete_comment] fails only
    with "comment not found" or "not your comment", and a failed call
    leaves the three tables as they were. *)
Theorem delete_comment_fails_cleanly (t : Tables) (u p k : string) (e : exn)
    (w' : World) :
  delete_comment u p k (up t) = (inl e, w') ->
  w' = up t
  /\ (e = NotFoundError CommentNotFound \/ e = ValidationError NotOwnComment).
Proof.
  rewrite delete_comment_up.
  destruct (List.find _ (read_comments t p)) as [c|].
  - destruct (negb _).
    + intros [= <- <-]. auto.
    + destruct (posts t !! p); discriminate.
  - intros [= <- <-]. auto.
Qed.

Lemma delete_comment_fails_cleanly_witness :
  snd (delete_comment "u1" "p1" "nonexistent_interaction_id" (up t0)) = up t0.
Proof.
  apply (delete_comment_fails_cleanly t0 "u1" "p1"
           "nonexistent_interaction_id" (NotFoundError CommentNotFound)).
  by_eval.
Defined.

(** X2. When the post holds no item of type [comment] under the given
    id, [delete_comment] raises "comment not found", whoever asks; an
    item of type [like] under that id does not count. *)
Theorem delete_comment_not_a_comment (t : Tables) (u p k : string) :
  (forall it, interactions t !! (p, k) = Some it ->
              ii_interaction_type it <> "comment") ->
  delete_comment u p k (up t) = (inl (NotFoundError CommentNotFound), up t).
Proof. intros Hno. now rewrite delete_comment_up, find_no_comment. Qed.

Lemma delete_comment_not_a_comment_witness :
  delete_comment "u2" "p1" "like#u2#2024-02-01T10:00:01" (up t_drifted)
  = (inl (NotFoundError CommentNotFound), up t_drifted).
Proof.
  apply (delete_comment_not_a_comment t_drifted "u2" "p1"
           "like#u2#2024-02-01T10:00:01").
  intros it Hit. vm_compute in Hit. injection Hit as <-. by_eval.
Defined.

(** X3. On a post that holds at most 50 items, a stored comment asked
    for by anyone but its author is refused with "not your comment", and
    nothing changes. *)
Theorem delete_comment_refuses_others (t : Tables) (u p k : string)
    (it : InteractionItem) :
  (length (partition t p) <= 50)%nat ->
  interactions t !! (p, k) = Some it ->
  ii_interaction_type it = "comment" ->
  ii_user_id it <> u ->
  delete_comment u p k (up t) = (inl (ValidationError NotOwnComment), up t).
Proof.
  intros Hlen Hl Hty Hne.
  apply (delete_comment_other_user t u p k it); [|assumption].
  now apply read_comments_small.
Qed.

Lemma delete_comment_refuses_others_witness :
  delete_comment "u2" "p1" (comment_id "2024-02-01T10:00:01" "u1")
    (up t_commented)
  = (inl (ValidationError NotOwnComment), up t_commented).
Proof.
  apply (delete_comment_refuses_others t_commented "u2" "p1" _
           (comment_item "2024-02-01T10:00:01" "u1" "first")); by_calc.
Defined.

(** X4. On an existing post that holds at most 50 items, the author of a
    stored comment gets it deleted: exactly that item leaves the
    Interactions table, the Users table is untouched, the stored
    [comments_count] goes down by 1 and is the number returned. *)
Theorem delete_comment_by_author (t : Tables) (p k : string)
    (it : InteractionItem) (item : PostItem) :
  (length (partition t p) <= 50)%nat ->
  interactions t !! (p, k) = Some it ->
  ii_interaction_type it = "comment" ->
  posts t !! p = Some item ->
  exists r t',
    delete_comment (ii_user_id it) p k (up t) = (inr r, up t')
    /\ interactions t' = delete (p, k) (interactions t)
    /\ users t' = users t
    /\ stored_comments_count (up t') p = stored_comments_count (up t) p - 1
    /\ stored_likes_count (up t') p = stored_likes_count (up t) p
    /\ remaining_comments r = stored_comments_count (up t') p.
Proof.
  intros Hlen Hl Hty Hp.
  assert (Hin : (k, it) ∈ read_comments t p) by now apply read_comments_small.
  rewrite delete_comment_up, (find_read_comment _ _ _ it Hin).
  simpl. rewrite String.eqb_refl, Hp. simpl.
  eexists _, _. split; [reflexivity|]. split; [reflexivity|].
  split; [reflexivity|].
  unfold stored_comments_count, stored_likes_count. simpl.
  rewrite lookup_alter_eq, Hp. simpl.
  destruct (pi_likes_count item); simpl; repeat split; lia.
Qed.

Lemma delete_comment_by_author_witness :
  exists r t',
    delete_comment "u1" "p1" (comment_id "2024-02-01T10:00:01" "u1")
      (up t_commented) = (inr r, up t')
    /\ interactions t' !! ("p1", comment_id "2024-02-01T10:00:01" "u1") = None
    /\ remaining_comments r = 0.
Proof.
  destruct (delete_comment_by_author t_commented "p1"
              (comment_id "2024-02-01T10:00:01" "u1")
              (comment_item "2024-02-01T10:00:01" "u1" "first")
              (Table.add_counts 0 1 photo))
    as (r & t' & Hrun & Hint & _ & Hcount & _ & Hr); [by_calc ..|].
  exists r, t'. split; [exact Hrun|]. split.
  - rewrite Hint. apply lookup_delete_eq.
  - rewrite Hr, Hcount. reflexivity.
Defined.

(** X5. A comment stored under a post id that names no post can still be
    deleted by its author: the item is removed, the Posts table is left
    alone (no counter is created) and the number returned is 0. *)
Theorem delete_comment_without_post (t : Tables) (p k : string)
    (it : InteractionItem) :
  (length (partition t p) <= 50)%nat ->
  interactions t !! (p, k) = Some it ->
  ii_interaction_type it = "comment" ->
  posts t !! p = None ->
  delete_comment (ii_user_id it) p k (up t)
  = (inr {| delete_message := CommentDeleted; remaining_comments := 0 |},
     up (without_interaction p k t)).
Proof.
  intros Hlen Hl Hty Hp.
  assert (Hin : (k, it) ∈ read_comments t p) by now apply read_comments_small.
  rewrite delete_comment_up, (find_read_comment _ _ _ it Hin).
  simpl. now rewrite String.eqb_refl, Hp.
Qed.

Lemma delete_comment_without_post_witness :
  delete_comment "u1" "p1" (comment_id "2024-02-01T10:00:01" "u1")
    (up t_orphan)
  = (inr {| delete_message := CommentDeleted; remaining_comments := 0 |},
     up (without_interaction "p1" (comment_id "2024-02-01T10:00:01" "u1")
           t_orphan)).
Proof.
  apply (delete_comment_without_post t_orphan "p1" _
           (comment_item "2024-02-01T10:00:01" "u1" "first")); by_calc.
Defined.

(** ** Toggling a like, continued *)

Lemma likes_of_nonempty (t : Tables) (p u : string) :
  is_Some (head (likes_of t p u))
  <-> exists k it, interactions t !! (p, k) = Some it
                   /\ String.prefix (Interaction.like_prefix u) k = true.
Proof.
  split.
  - intros [[k it] Hh]. exists k, it. apply elem_of_likes_of.
    destruct (likes_of t p u) as [|e l]; [discriminate|].
    injection Hh as ->. left.
  - intros (k & it & Hin). apply elem_of_likes_of in Hin.
    destruct (likes_of t p u); [inversion Hin|]. simpl. eauto.
Qed.

(** X6. The answer of [toggle_like] is the opposite of what
    [get_user_like_status] said just before, in every state of the
    tables: for an existing post the call succeeds, it answers
    [liked = true] exactly when the status was [False], and the count it
    reports is the stored one moved by [+1] or [-1] accordingly. *)
Theorem toggle_like_flips_status (t : Tables) (item : PostItem)
    (now u p : string) :
  posts t !! p = Some item ->
  exists res t',
    toggle_like now u p (up t) = (inr res, up t')
    /\ fst (get_user_like_status u p (up t)) = inr (negb (liked res))
    /\ likes_count res
       = stored_likes_count (up t) p + (if liked res then 1 else -1)
    /\ stored_likes_count (up t') p = likes_count res.
Proof.
  intros Hp. rewrite toggle_like_up, get_user_like_status_up, Hp.
  rewrite (stored_likes_count_up _ _ _ Hp).
  destruct (head (likes_of t p u)) as [e|]; eexists _, _;
    (split; [reflexivity|]); simpl; (split; [reflexivity|]);
    (split; [reflexivity|]);
    unfold stored_likes_count; simpl; now rewrite lookup_alter_eq, Hp.
Qed.

Lemma toggle_like_flips_status_witness :
  exists res t',
    toggle_like "2024-02-01T10:00:02" "u2" "p1" (up t_drifted)
    = (inr res, up t')
    /\ liked res = false /\ likes_count res = 4.
Proof.
  destruct (toggle_like_flips_status t_drifted (Table.add_counts 5 0 photo)
              "2024-02-01T10:00:02" "u2" "p1")
    as (res & t' & Hrun & Hst & Hc & _); [by_eval|].
  exists res, t'. split; [exact Hrun|].
  assert (Hl : liked res = false).
  { destruct (liked res); [|reflexivity]. vm_compute in Hst. discriminate. }
  split; [exact Hl|]. rewrite Hc, Hl. reflexivity.
Defined.

(** X7. What a toggle leaves alone: the Users table, every other post,
    every item stored under another post, and every item of the same post
    whose id does not begin with [like#user_id#] (comments among them). *)
Theorem toggle_like_frame (t : Tables) (item : PostItem) (now u p : string) :
  posts t !! p = Some item ->
  exists res t',
    toggle_like now u p (up t) = (inr res, up t')
    /\ users t' = users t
    /\ (forall q, q <> p -> posts t' !! q = posts t !! q)
    /\ (forall q k, q <> p ->
          interactions t' !! (q, k) = interactions t !! (q, k))
    /\ (forall k, String.prefix (Interaction.like_prefix u) k = false ->
          interactions t' !! (p, k) = interactions t !! (p, k)).
Proof.
  intros Hp. rewrite toggle_like_up, Hp.
  destruct (head (likes_of t p u)) as [[k0 it0]|] eqn:Hh; eexists _, _;
    (split; [reflexivity|]); simpl; (split; [reflexivity|]);
    (split; [intros q Hq; now rewrite lookup_alter_ne by congruence|]).
  - assert (Hin : (k0, it0) ∈ likes_of t p u).
    { destruct (likes_of t p u); [discriminate|].
      injection Hh as ->. left. }
    apply elem_of_likes_of in Hin as [_ Hpre].
    split; intros; rewrite lookup_delete_ne; congruence.
  - pose proof (like_id_prefix now p u None) as Hpre.
    cbn [Interaction.interaction_id Interaction.new] in Hpre.
    split; intros; rewrite lookup_insert_ne; congruence.
Qed.

Lemma toggle_like_frame_witness :
  exists res t',
    toggle_like "2024-02-01T10:00:02" "u2" "p1" (up t_commented)
    = (inr res, up t')
    /\ users t' = users t_commented
    /\ interactions t' !! ("p1", comment_id "2024-02-01T10:00:01" "u1")
       = Some (comment_item "2024-02-01T10:00:01" "u1" "first").
Proof.
  destruct (toggle_like_frame t_commented (Table.add_counts 0 1 photo)
              "2024-02-01T10:00:02" "u2" "p1")
    as (res & t' & Hrun & Hu & _ & _ & Hsame); [by_eval|].
  exists res, t'. split; [exact Hrun|]. split; [exact Hu|].
  rewrite Hsame; by_eval.
Defined.

Lemma add_counts_back (dl dc : Z) (item : PostItem) (l c : Z) :
  pi_likes_count item = Some l -> pi_comments_count item = Some c ->
  Table.add_counts (- dl) (- dc) (Table.add_counts dl dc item) = item.
Proof.
  intros Hl Hc. destruct item as [pu pk pc pl pcc pcr]. simpl in *.
  subst. unfold Table.add_counts. simpl. repeat f_equal; lia.
Qed.



(** ** Comments and likes together *)

Lemma comment_id_not_like (now u u' : string) :
  String.prefix (Interaction.like_prefix u') (comment_id now u) = false.
Proof. reflexivity. Qed.

(** X9. A comment is never taken for a like: after a successful
    [add_comment], [get_user_like_status] answers for every user and the
    same post what it answered before, and the stored [likes_count] of
    the post is what it was. *)
Theorem add_comment_keeps_like_status (t : Tables) (now u p c : string)
    (r : comment_result) (w' : World) (u' : string) :
  add_comment now u p (Some c) (up t) = (inr r, w') ->
  fst (get_user_like_status u' p w') = fst (get_user_like_status u' p (up t))
  /\ stored_likes_count w' p = stored_likes_count (up t) p.
Proof.
  rewrite add_comment_up.
  destruct (String.eqb (strip c) ""); [discriminate|].
  destruct (len (strip c) >? 500); [discriminate|].
  destruct (posts t !! p) as [item|] eqn:Hp; [|discriminate].
  destruct (users t !! u) as [user|]; [|discriminate].
  intros [= _ <-]. split.
  - rewrite !get_user_like_status_up. simpl. f_equal.
    apply bool_decide_ext. rewrite !likes_of_nonempty. simpl.
    change (Interaction.interaction_id (new_comment now u p c))
      with (comment_id now u).
    split; intros (k & it & Hl & Hpre).
    + destruct (decide (k = comment_id now u)) as [->|Hne].
      * now rewrite comment_id_not_like in Hpre.
      * unfold comment_id in Hne.
        rewrite lookup_insert_ne in Hl by congruence. eauto.
    + destruct (decide (k = comment_id now u)) as [->|Hne].
      * now rewrite comment_id_not_like in Hpre.
      * unfold comment_id in Hne.
        exists k, it. rewrite lookup_insert_ne by congruence. auto.
  - unfold stored_likes_count. simpl. rewrite lookup_alter_eq, Hp. simpl.
    destruct (pi_likes_count item); simpl; lia.
Qed.

Lemma add_comment_keeps_like_status_witness :
  exists r w',
    add_comment "2024-02-01T10:00:05" "u1" "p1" (Some "nice") (up t_drifted)
    = (inr r, w')
    /\ fst (get_user_like_status "u2" "p1" w') = inr true.
Proof.
  assert (Hrun : exists r w',
             add_comment "2024-02-01T10:00:05" "u1" "p1" (Some "nice")
               (up t_drifted) = (inr r, w')).
  { rewrite add_comment_up. eexists _, _. reflexivity. }
  destruct Hrun as (r & w' & Hrun). exists r, w'. split; [exact Hrun|].
  rewrite (proj1 (add_comment_keeps_like_status t_drifted
                    "2024-02-01T10:00:05" "u1" "p1" "nice" r w' "u2" Hrun)).
  by_eval.
Defined.

(** ** Keys and fields *)

(** X10. In a store whose items have the ids the service gives them and
    whose user ids hold no ['#'], [get_user_like_status] says [True] for
    a user without ['#'] exactly when the post has an item of type
    [like] whose [user_id] is that user. *)
Theorem like_status_by_fields (t : Tables) (u p : string) :
  keyed t -> plain_ids t -> no_hash u = true ->
  (fst (get_user_like_status u p (up t)) = inr true
   <-> exists k it, interactions t !! (p, k) = Some it
                    /\ ii_interaction_type it = "like"
                    /\ ii_user_id it = u).
Proof.
  intros Hkeyed Hplain Hu. rewrite get_user_like_status_up. simpl.
  split.
  - intros [= Hsome]. apply bool_decide_eq_true in Hsome.
    apply likes_of_nonempty in Hsome as (k & it & Hl & Hpre).
    exists k, it. split; [assumption|].
    destruct (keyed_like_prefix _ _ _ (Hkeyed _ _ _ Hl) Hpre) as [Hty Hpre'].
    split; [assumption|].
    now apply (prefix_hash_free (ii_user_id it) u (ii_created_at it)
                 (Hplain _ _ _ Hl) Hu).
  - intros (k & it & Hl & Hty & Hus). f_equal. apply bool_decide_eq_true.
    apply likes_of_nonempty. exists k, it. split; [assumption|].
    destruct (Hkeyed _ _ _ Hl) as [-> _]. rewrite Hty, Hus.
    unfold Interaction.like_prefix. rewrite <- !append_assoc.
    apply prefix_append.
Qed.

Lemma like_status_by_fields_witness :
  fst (get_user_like_status "u2" "p1" (up t_drifted)) = inr true.
Proof.
  apply (like_status_by_fields t_drifted "u2" "p1").
  - intros p k it Hl.
    destruct (decide ((p, k) = ("p1", "like#u2#2024-02-01T10:00:01")))
      as [[= -> ->]|Hne].
    + vm_compute in Hl. injection Hl as <-. split; [reflexivity|now left].
    + unfold t_drifted in Hl. simpl in Hl.
      rewrite lookup_insert_ne in Hl by congruence. discriminate.
  - intros p k it Hl.
    destruct (decide ((p, k) = ("p1", "like#u2#2024-02-01T10:00:01")))
      as [[= -> ->]|Hne].
    + vm_compute in Hl. injection Hl as <-. reflexivity.
    + unfold t_drifted in Hl. simpl in Hl.
      rewrite lookup_insert_ne in Hl by congruence. discriminate.
  - reflexivity.
  - exists "like#u2#2024-02-01T10:00:01". eexists. split; [by_eval|].
    split; reflexivity.
Defined.

(** ** Counters and records *)

Lemma filter_length_perm {A} (f : A -> bool) (l l' : list A) :
  Permutation l l' ->
  length (List.filter f l) = length (List.filter f l').
Proof.
  induction 1 as [|x l l' _ IH|x y l|l l' l'' _ IH1 _ IH2]; simpl.
  - reflexivity.
  - destruct (f x); simpl; now rewrite IH.
  - destruct (f x), (f y); reflexivity.
  - now rewrite IH1.
Qed.

Lemma partition_added (t : Tables) (p k : string) (it : InteractionItem) :
  interactions t !! (p, k) = None ->
  Permutation (partition (with_interaction p k it t) p)
    ((k, it) :: partition t p).
Proof.
  intros Hfresh. apply NoDup_Permutation.
  - apply NoDup_partition.
  - apply NoDup_cons. split; [|apply NoDup_partition].
    rewrite elem_of_partition. congruence.
  - intros [k' it']. rewrite elem_of_cons, !elem_of_partition. simpl.
    destruct (decide (k' = k)) as [->|Hne].
    + rewrite lookup_insert_eq. split.
      * intros [= ->]. now left.
      * intros [[= ->]|Hl]; [reflexivity|congruence].
    + rewrite lookup_insert_ne by congruence. split; [now right|].
      intros [[= -> _]|Hl]; [contradiction|assumption].
Qed.

Lemma partition_removed (t : Tables) (p k : string) (it : InteractionItem) :
  interactions t !! (p, k) = Some it ->
  Permutation (partition t p)
    ((k, it) :: partition (without_interaction p k t) p).
Proof.
  intros Hl. apply NoDup_Permutation.
  - apply NoDup_partition.
  - apply NoDup_cons. split; [|apply NoDup_partition].
    rewrite elem_of_partition. simpl. now rewrite lookup_delete_eq.
  - intros [k' it']. rewrite elem_of_cons, !elem_of_partition. simpl.
    destruct (decide (k' = k)) as [->|Hne].
    + rewrite lookup_delete_eq. split.
      * intros Hl'. left. congruence.
      * intros [[= ->]|Hn]; [assumption|discriminate].
    + rewrite lookup_delete_ne by congruence. split; [now right|].
      intros [[= -> _]|Hl']; [contradiction|assumption].
Qed.

Lemma count_type_added (ty : string) (t : Tables) (p k : string)
    (it : InteractionItem) :
  interactions t !! (p, k) = None ->
  count_type ty (with_interaction p k it t) p
  = count_type ty t p
    + (if String.eqb (ii_interaction_type it) ty then 1 else 0).
Proof.
  intros Hfresh. unfold count_type.
  rewrite (filter_length_perm _ _ _ (partition_added t p k it Hfresh)).
  simpl. destruct (String.eqb (ii_interaction_type it) ty); simpl; lia.
Qed.

Lemma count_type_removed (ty : string) (t : Tables) (p k : string)
    (it : InteractionItem) :
  interactions t !! (p, k) = Some it ->
  count_type ty (without_interaction p k t) p
  = count_type ty t p
    - (if String.eqb (ii_interaction_type it) ty then 1 else 0).
Proof.
  intros Hl. unfold count_type.
  rewrite (filter_length_perm _ _ _ (partition_removed t p k it Hl)).
  simpl. destruct (String.eqb (ii_interaction_type it) ty); simpl; lia.
Qed.

Lemma count_type_counted (ty : string) (t : Tables) (dl dc : Z)
    (q p : string) :
  count_type ty (counted dl dc q t) p = count_type ty t p.
Proof. reflexivity. Qed.

Lemma stored_counts_counted (t : Tables) (p : string) (item : PostItem)
    (dl dc : Z) :
  posts t !! p = Some item ->
  stored_likes_count (up (counted dl dc p t)) p
  = stored_likes_count (up t) p + dl
  /\ stored_comments_count (up (counted dl dc p t)) p
     = stored_comments_count (up t) p + dc.
Proof.
  intros Hp. unfold stored_likes_count, stored_comments_count. simpl.
  now rewrite lookup_alter_eq, Hp.
Qed.

Lemma keyed_added (t : Tables) (p k : string) (it : InteractionItem) :
  keyed t -> keyed_item k it -> keyed (with_interaction p k it t).
Proof.
  intros Hk Hit q k' it'. unfold with_interaction. simpl. intros Hl.
  destruct (decide ((q, k') = (p, k))) as [[= -> ->]|Hne].
  - rewrite lookup_insert_eq in Hl. congruence.
  - rewrite lookup_insert_ne in Hl by congruence. eauto.
Qed.

Lemma keyed_removed (t : Tables) (p k : string) :
  keyed t -> keyed (without_interaction p k t).
Proof.
  intros Hk q k' it'. unfold without_interaction. simpl. intros Hl.
  destruct (decide ((q, k') = (p, k))) as [[= -> ->]|Hne].
  - rewrite lookup_delete_eq in Hl. discriminate.
  - rewrite lookup_delete_ne in Hl by congruence. eauto.
Qed.

(** The counters of a post after its counters were moved and one item
    was put under a new id. *)
Lemma counts_agree_added (t : Tables) (p k : string) (it : InteractionItem)
    (item : PostItem) (dl dc : Z) :
  posts t !! p = Some item ->
  interactions t !! (p, k) = None ->
  dl = (if String.eqb (ii_interaction_type it) "like" then 1 else 0) ->
  dc = (if String.eqb (ii_interaction_type it) "comment" then 1 else 0) ->
  counts_agree t p ->
  counts_agree (counted dl dc p (with_interaction p k it t)) p.
Proof.
  intros Hp Hfresh Hdl Hdc [Hlikes Hcomments].
  destruct (stored_counts_counted (with_interaction p k it t) p item dl dc Hp)
    as [Hsl Hsc].
  split.
  - rewrite Hsl, count_type_counted, (count_type_added "like" t p k it Hfresh).
    change (stored_likes_count (up (with_interaction p k it t)) p)
      with (stored_likes_count (up t) p).
    lia.
  - rewrite Hsc, count_type_counted,
      (count_type_added "comment" t p k it Hfresh).
    change (stored_comments_count (up (with_interaction p k it t)) p)
      with (stored_comments_count (up t) p).
    lia.
Qed.

(** The counters of a post after one of its items was deleted and its
    counters were moved. *)
Lemma counts_agree_removed (t : Tables) (p k : string) (it : InteractionItem)
    (item : PostItem) (dl dc : Z) :
  posts t !! p = Some item ->
  interactions t !! (p, k) = Some it ->
  dl = (if String.eqb (ii_interaction_type it) "like" then -1 else 0) ->
  dc = (if String.eqb (ii_interaction_type it) "comment" then -1 else 0) ->
  counts_agree t p ->
  counts_agree (counted dl dc p (without_interaction p k t)) p.
Proof.
  intros Hp Hl Hdl Hdc [Hlikes Hcomments].
  destruct (stored_counts_counted (without_interaction p k t) p item dl dc Hp)
    as [Hsl Hsc].
  split.
  - rewrite Hsl, count_type_counted, (count_type_removed "like" t p k it Hl).
    change (stored_likes_count (up (without_interaction p k t)) p)
      with (stored_likes_count (up t) p).
    destruct (String.eqb (ii_interaction_type it) "like"); lia.
  - rewrite Hsc, count_type_counted,
      (count_type_removed "comment" t p k it Hl).
    change (stored_comments_count (up (without_interaction p k t)) p)
      with (stored_comments_count (up t) p).
    destruct (String.eqb (ii_interaction_type it) "comment"); lia.
Qed.

(** X11. Counters follow the records. In a store whose items have the
    ids the service gives them, if the two counters of an existing post
    equal the numbers of its like and comment items, they still do after
    [toggle_like], whoever toggles and whatever likes are stored; the
    items keep the form of their ids. *)
Theorem toggle_like_keeps_counts (t : Tables) (item : PostItem)
    (now u p : string) :
  keyed t ->
  posts t !! p = Some item ->
  counts_agree t p ->
  exists res t',
    toggle_like now u p (up t) = (inr res, up t')
    /\ keyed t'
    /\ counts_agree t' p.
Proof.
  intros Hkeyed Hp Hagree. rewrite toggle_like_up, Hp.
  destruct (head (likes_of t p u)) as [[k0 it0]|] eqn:Hh.
  - assert (Hin : (k0, it0) ∈ likes_of t p u).
    { destruct (likes_of t p u); [discriminate|]. injection Hh as ->. left. }
    apply elem_of_likes_of in Hin as [Hl Hpre].
    destruct (keyed_like_prefix _ _ _ (Hkeyed _ _ _ Hl) Hpre) as [Hty _].
    eexists _, _. split; [reflexivity|].
    split; [now apply keyed_removed|].
    apply (counts_agree_removed t p k0 it0 item); trivial;
      now rewrite Hty.
  - apply head_likes_of_None in Hh.
    set (like := Interaction.new now p u "like" None).
    assert (Hfresh : interactions t !! (p, Interaction.interaction_id like)
                     = None).
    { destruct (interactions t !! (p, _)) as [it|] eqn:Hit; [|reflexivity].
      pose proof (like_id_prefix now p u None) as Hpre.
      fold like in Hpre. rewrite (Hh _ _ Hit) in Hpre. discriminate. }
    eexists _, _. split; [reflexivity|].
    split.
    + apply (keyed_added t p _ (Interaction.to_item like) Hkeyed).
      split; [reflexivity|now left].
    + now apply (counts_agree_added t p _ (Interaction.to_item like) item).
Qed.

Lemma keyed_t0 : keyed t0.
Proof. intros p k it Hl. unfold t0 in Hl. simpl in Hl. discriminate. Qed.

Lemma toggle_like_keeps_counts_witness :
  exists res t',
    toggle_like "2024-02-01T10:00:01" "u1" "p1" (up t0) = (inr res, up t')
    /\ counts_agree t' "p1".
Proof.
  destruct (toggle_like_keeps_counts t0 photo "2024-02-01T10:00:01" "u1" "p1")
    as (res & t' & Hrun & _ & Hagree);
    [exact keyed_t0 | by_eval | split; by_eval |].
  exists res, t'. split; assumption.
Defined.

(** X12. Counters follow the records under [add_comment] too: with ids of
    the service's form and counters that agree with the items of the
    post, a successful [add_comment] whose new id is not in use yet
    leaves both in place. *)
Theorem add_comment_keeps_counts (t : Tables) (now u p c : string)
    (r : comment_result) (w' : World) :
  keyed t ->
  counts_agree t p ->
  interactions t !! (p, comment_id now u) = None ->
  add_comment now u p (Some c) (up t) = (inr r, w') ->
  exists t', w' = up t' /\ keyed t' /\ counts_agree t' p.
Proof.
  intros Hkeyed Hagree Hfresh. rewrite add_comment_up.
  destruct (String.eqb (strip c) "") eqn:Hs; [discriminate|].
  destruct (len (strip c) >? 500); [discriminate|].
  destruct (posts t !! p) as [item|] eqn:Hp; [|discriminate].
  destruct (users t !! u) as [user|]; [|discriminate].
  intros [= _ <-]. eexists. split; [reflexivity|].
  assert (Hty : ii_interaction_type
                  (Interaction.to_item (new_comment now u p c)) = "comment")
    by reflexivity.
  split.
  - apply keyed_added; [assumption|].
    split; [reflexivity|now right].
  - apply (counts_agree_added t p _ _ item); trivial; now rewrite Hty.
Qed.

Lemma add_comment_keeps_counts_witness :
  exists r t',
    add_comment "2024-02-01T10:00:01" "u1" "p1" (Some "hello") (up t0)
    = (inr r, up t')
    /\ counts_agree t' "p1".
Proof.
  assert (H1 : counts_agree t0 "p1") by (split; by_eval).
  assert (H2 : interactions t0 !! ("p1", comment_id "2024-02-01T10:00:01" "u1")
               = None) by by_eval.
  assert (Hrun : exists r w',
             add_comment "2024-02-01T10:00:01" "u1" "p1" (Some "hello")
               (up t0) = (inr r, w')).
  { rewrite add_comment_up. eexists _, _. reflexivity. }
  destruct Hrun as (r & w' & Hrun).
  destruct (add_comment_keeps_counts t0 "2024-02-01T10:00:01" "u1" "p1"
              "hello" r w' keyed_t0 H1 H2 Hrun) as (t' & -> & _ & Hagree).
  exists r, t'. split; assumption.
Defined.

(** X13. And under [delete_comment]: whatever the outcome of the call on
    an existing post, ids keep their form and the counters still agree
    with the items of the post. *)
Theorem delete_comment_keeps_counts (t : Tables) (u p k : string)
    (r : exn + delete_result) (w' : World) :
  keyed t ->
  counts_agree t p ->
  is_Some (posts t !! p) ->
  delete_comment u p k (up t) = (r, w') ->
  exists t', w' = up t' /\ keyed t' /\ counts_agree t' p.
Proof.
  intros Hkeyed Hagree [item Hp]. rewrite delete_comment_up.
  destruct (List.find _ (read_comments t p)) as [[k0 it0]|] eqn:Hfind.
  - apply find_some in Hfind as [Hin _].
    apply list_elem_of_In, elem_of_read_comments in Hin as [Hl Hty].
    simpl. destruct (negb _).
    + intros [= _ <-]. eauto.
    + rewrite Hp. intros [= _ <-]. eexists. split; [reflexivity|].
      split; [now apply keyed_removed|].
      apply (counts_agree_removed t p k0 it0 item); trivial; now rewrite Hty.
  - intros [= _ <-]. eauto.
Qed.

Lemma keyed_t_commented : keyed t_commented.
Proof.
  intros p k it Hl. unfold t_commented in Hl. cbn [interactions] in Hl.
  apply lookup_insert_Some in Hl as [[[= <- <-] <-]|[_ Hl]].
  - split; [reflexivity|now right].
  - rewrite lookup_empty in Hl. discriminate.
Qed.

Lemma delete_comment_keeps_counts_witness :
  exists r t',
    delete_comment "u1" "p1" (comment_id "2024-02-01T10:00:01" "u1")
      (up t_commented) = (r, up t')
    /\ counts_agree t' "p1".
Proof.
  assert (H1 : counts_agree t_commented "p1") by (split; by_eval).
  assert (H2 : is_Some (posts t_commented !! "p1")) by by_eval.
  assert (Hrun : exists r w',
             delete_comment "u1" "p1"
               (comment_id "2024-02-01T10:00:01" "u1") (up t_commented)
             = (r, w')) by (eexists _, _; apply surjective_pairing).
  destruct Hrun as (r & w' & Hrun).
  destruct (delete_comment_keeps_counts t_commented "u1" "p1"
              (comment_id "2024-02-01T10:00:01" "u1") r w'
              keyed_t_commented H1 H2 Hrun) as (t' & -> & _ & Hagree).
  exists r, t'. split; assumption.
Defined.

(** ** A store that fails half way *)

Lemma store_call_served {A} (f : Tables -> (exn + A) * Tables) (t : Tables)
    (rest : list (option string)) :
  store_call f {| tables := t; plan := None :: rest |}
  = (fst (f t), {| tables := snd (f t); plan := rest |}).
Proof. unfold store_call. simpl. now destruct (f t). Qed.

Lemma store_call_failed {A} (f : Tables -> (exn + A) * Tables) (t : Tables)
    (text : string) (rest : list (option string)) :
  store_call f {| tables := t; plan := Some text :: rest |}
  = (inl (BotoError text), {| tables := t; plan := rest |}).
Proof. reflexivity. Qed.

(** X14. Counter drift. When the store serves the seven calls that read
    the post, look up the like and save it, and then fails at the counter
    update, [toggle_like] raises, but the like stays stored: the user is
    then seen as liking the post while the stored [likes_count] is what
    it was before the call. *)
Theorem toggle_like_counter_update_fails (t : Tables) (item : PostItem)
    (now u p text : string) :
  posts t !! p = Some item ->
  fst (get_user_like_status u p (up t)) = inr false ->
  exists t',
    toggle_like now u p (fails_after 7 text t)
    = (inl (monitored "toggle_like" text), up t')
    /\ fst (get_user_like_status u p (up t')) = inr true
    /\ stored_likes_count (up t') p = stored_likes_count (up t) p.
Proof.
  intros Hp Hnone. apply status_false_no_like in Hnone.
  set (like := Interaction.new now p u "like" None).
  exists (with_interaction p (Interaction.interaction_id like)
            (Interaction.to_item like) t).
  split; [|split].
  - apply head_likes_of_None in Hnone.
    unfold toggle_like, monitor_database_operation, try_except,
      Post.get_by_id, Interaction.get_user_like, Interaction.save,
      Post.update_counts, get_table, Table.get_post, Table.query,
      Table.put_interaction, Table.update_post_counts, fails_after.
    unfold bind. simpl replicate. simpl app.
    repeat (rewrite store_call_served; simpl).
    rewrite Hp. simpl.
    repeat (rewrite store_call_served; simpl).
    unfold Table.query_items. fold (likes_of t p u).
    destruct (likes_of t p u); [|discriminate]. simpl.
    repeat (rewrite store_call_served; simpl).
    rewrite ?store_call_failed. unfold monitored, mentions_store.
    now destruct (contains "dynamodb" (lower text) || _).
  - apply (status_true_one_like u p (Interaction.interaction_id like)).
    apply no_like_added; [assumption|apply like_id_prefix].
  - reflexivity.
Qed.

Lemma toggle_like_counter_update_fails_witness :
  exists t',
    toggle_like "2024-02-01T10:00:01" "u1" "p1"
      (fails_after 7 "An error occurred (InternalServerError)" t0)
    = (inl (BotoError "An error occurred (InternalServerError)"), up t')
    /\ fst (get_user_like_status "u1" "p1" (up t')) = inr true
    /\ stored_likes_count (up t') "p1" = 0.
Proof.
  destruct (toggle_like_counter_update_fails t0 photo "2024-02-01T10:00:01"
              "u1" "p1" "An error occurred (InternalServerError)")
    as (t' & Hrun & Hst & Hc); [by_eval | by_eval |].
  exists t'. split; [exact Hrun|]. split; [exact Hst|].
  rewrite Hc. reflexivity.
Defined.

(** ** Which exceptions reach the caller *)

Lemma raises_only_ret {A} (P : exn -> Prop) (a : A) : raises_only P (ret a).
Proof. intros w e w' H. discriminate. Qed.

Lemma raises_only_raise {A} (P : exn -> Prop) (e : exn) :
  P e -> raises_only P (@raise A e).
Proof. intros He w e' w' [= <- _]. exact He. Qed.

Lemma raises_only_bind {A B} (P : exn -> Prop) (m : M A) (k : A -> M B) :
  raises_only P m -> (forall a, raises_only P (k a)) ->
  raises_only P (bind m k).
Proof.
  intros Hm Hk w e w'. unfold bind.
  destruct (m w) as [[e0|a] w1] eqn:Hrun.
  - intros [= <- _]. now apply (Hm _ _ _ Hrun).
  - apply Hk.
Qed.

Lemma raises_only_store_call {A} (P : exn -> Prop)
    (f : Tables -> (exn + A) * Tables) :
  (forall text, P (BotoError text)) ->
  (forall t, exists a t', f t = (inr a, t')) ->
  raises_only P (store_call f).
Proof.
  intros HP Hf [t pl] e w'. unfold store_call. simpl.
  destruct pl as [|[text|] rest].
  - destruct (Hf t) as (a & t' & ->). discriminate.
  - intros [= <- _]. apply HP.
  - destruct (Hf t) as (a & t' & ->). discriminate.
Qed.

Lemma raises_only_weaken {A} (P Q : exn -> Prop) (m : M A) :
  (forall e, P e -> Q e) -> raises_only P m -> raises_only Q m.
Proof. intros HPQ Hm w e w' H. apply HPQ. now apply (Hm _ _ _ H). Qed.

Lemma raises_only_monitor {A} (P : exn -> Prop) (op : string) (m : M A) :
  raises_only P m ->
  raises_only
    (fun e => e = DatabaseError op \/ (P e /\ mentions_store e = false))
    (monitor_database_operation op m).
Proof.
  intros Hm w e w'. unfold monitor_database_operation, try_except.
  destruct (m w) as [[e0|a] w1] eqn:Hrun; [|discriminate].
  destruct (mentions_store e0) eqn:Hment.
  - intros [= <- _]. now left.
  - intros [= <- _]. right. split; [|assumption]. now apply (Hm _ _ _ Hrun).
Qed.

(** Breaks an operation down into what its parts raise. *)
Ltac only_raises :=
  repeat first
    [ apply raises_only_ret
    | apply raises_only_store_call;
        [ intros ?; eauto; fail
        | intros ?; eexists _, _; reflexivity ]
    | apply raises_only_bind; [|intros ?]
    | match goal with
      | |- raises_only _ (match ?x with _ => _ end) => destruct x
      end
    | progress cbv zeta ].

Lemma from_store_Post_get_by_id (p : string) :
  raises_only from_store (Post.get_by_id p).
Proof.
  unfold Post.get_by_id, get_table, Table.get_post, from_store. only_raises.
Qed.

Lemma from_store_update_counts (post : Post.t) (dl dc : Z) :
  raises_only from_store (Post.update_counts post dl dc).
Proof.
  unfold Post.update_counts, get_table, Table.update_post_counts, from_store.
  only_raises.
Qed.

Lemma from_store_save (i : Interaction.t) :
  raises_only from_store (Interaction.save i).
Proof.
  unfold Interaction.save, get_table, Table.put_interaction, from_store.
  only_raises.
Qed.

Lemma from_store_delete (i : Interaction.t) :
  raises_only from_store (Interaction.delete i).
Proof.
  unfold Interaction.delete, get_table, Table.delete_interaction, from_store.
  only_raises.
Qed.

Lemma from_store_get_user_like (p u : string) :
  raises_only from_store (Interaction.get_user_like p u).
Proof.
  unfold Interaction.get_user_like, get_table, Table.query, from_store.
  only_raises.
Qed.

Lemma from_store_delete_like (p u : string) :
  raises_only from_store (Interaction.delete_like p u).
Proof.
  unfold Interaction.delete_like.
  apply raises_only_bind; [apply from_store_get_user_like|].
  intros [like|]; unfold get_table, Table.delete_interaction, from_store;
    only_raises.
Qed.

Lemma from_store_get_post_interactions (p : string) (ty : option string)
    (limit : Z) :
  raises_only from_store (Interaction.get_post_interactions p ty limit).
Proof.
  unfold Interaction.get_post_interactions, get_table, Table.query.
  apply raises_only_bind; [unfold from_store; only_raises|]. intros _.
  apply raises_only_bind; [|intros ?; apply raises_only_ret].
  destruct (limit <? 1).
  - apply raises_only_raise. unfold from_store. eauto.
  - unfold from_store. only_raises.
Qed.

Lemma raises_User_get_by_id (u : string) :
  raises_only
    (fun e => e = DatabaseError "user_get_by_id"
              \/ (from_store e /\ mentions_store e = false))
    (User.get_by_id u).
Proof.
  unfold User.get_by_id. apply raises_only_monitor.
  unfold get_table, Table.get_user, from_store. only_raises.
Qed.

(** X15. Which exceptions reach the caller, in every world. [toggle_like]
    raises "post not found", [DatabaseError] for the operation, or an
    exception of the store whose text names neither dynamodb nor boto;
    [add_comment] raises one of its two validation errors, "post not
    found", "user not found", [DatabaseError] for the user lookup or for
    the operation, or such an exception of the store; [delete_comment],
    which is not decorated, raises "comment not found", "not your
    comment", or any exception of the store as it is. *)
Theorem exceptions_raised :
  (forall now u p,
     raises_only
       (fun e => e = NotFoundError PostNotFound
                 \/ e = DatabaseError "toggle_like"
                 \/ (from_store e /\ mentions_store e = false))
       (toggle_like now u p))
  /\ (forall now u p c,
        raises_only
          (fun e => e = ValidationError CommentRequired
                    \/ e = ValidationError CommentTooLong
                    \/ e = NotFoundError PostNotFound
                    \/ e = NotFoundError UserNotFound
                    \/ e = DatabaseError "user_get_by_id"
                    \/ e = DatabaseError "add_comment"
                    \/ (from_store e /\ mentions_store e = false))
          (add_comment now u p c))
  /\ (forall u p k,
        raises_only
          (fun e => e = NotFoundError CommentNotFound
                    \/ e = ValidationError NotOwnComment
                    \/ from_store e)
          (delete_comment u p k)).
Proof.
  split; [|split].
  - intros now u p. unfold toggle_like.
    apply (raises_only_weaken
             (fun e => e = DatabaseError "toggle_like"
                       \/ ((e = NotFoundError PostNotFound \/ from_store e)
                           /\ mentions_store e = false))).
    { intros e [->|[[->|Hs] Hm]]; auto. }
    apply raises_only_monitor.
    apply raises_only_bind.
    { apply (raises_only_weaken from_store); [auto|].
      apply from_store_Post_get_by_id. }
    intros [post|]; [|apply raises_only_raise; auto].
    apply (raises_only_weaken from_store); [auto|].
    apply raises_only_bind; [apply from_store_get_user_like|].
    intros [like|]; cbv zeta.
    + apply raises_only_bind; [apply from_store_delete_like|]. intros _.
      apply raises_only_bind; [apply from_store_update_counts|]. intros ?.
      apply raises_only_ret.
    + apply raises_only_bind; [apply from_store_save|]. intros _.
      apply raises_only_bind; [apply from_store_update_counts|]. intros ?.
      apply raises_only_ret.
  - intros now u p c. unfold add_comment.
    apply (raises_only_weaken
             (fun e => e = DatabaseError "add_comment"
                       \/ ((e = ValidationError CommentRequired
                            \/ e = ValidationError CommentTooLong
                            \/ e = NotFoundError PostNotFound
                            \/ e = NotFoundError UserNotFound
                            \/ e = DatabaseError "user_get_by_id"
                            \/ from_store e)
                           /\ mentions_store e = false))).
    { intros e [->|[[->|[->|[->|[->|[->|Hs]]]]] Hm]]; auto 10. }
    apply raises_only_monitor.
    destruct c as [c|]; [|apply raises_only_raise; auto].
    destruct (_ || _); [apply raises_only_raise; auto|]. cbv zeta.
    destruct (_ >? _); [apply raises_only_raise; auto|].
    apply raises_only_bind.
    { apply (raises_only_weaken from_store); [auto 10|].
      apply from_store_Post_get_by_id. }
    intros [post|]; [|apply raises_only_raise; auto].
    apply raises_only_bind.
    { eapply raises_only_weaken; [|apply raises_User_get_by_id].
      intros e [->|[Hs _]]; auto 10. }
    intros [user|]; [|apply raises_only_raise; auto 10].
    cbv zeta. apply (raises_only_weaken from_store); [auto 10|].
    apply raises_only_bind; [apply from_store_save|]. intros _.
    apply raises_only_bind; [apply from_store_update_counts|]. intros ?.
    apply raises_only_ret.
  - intros u p k. unfold delete_comment.
    apply raises_only_bind.
    { apply (raises_only_weaken from_store); [auto|].
      apply from_store_get_post_interactions. }
    intros cs. destruct (List.find _ cs) as [c|];
      [|apply raises_only_raise; auto].
    destruct (negb _); [apply raises_only_raise; auto|].
    apply (raises_only_weaken from_store); [auto|].
    apply raises_only_bind; [apply from_store_delete|]. intros _.
    apply raises_only_bind; [apply from_store_Post_get_by_id|].
    intros [post|]; [|apply raises_only_ret].
    apply raises_only_bind; [apply from_store_update_counts|]. intros ?.
    apply raises_only_ret.
Qed.

Lemma exceptions_raised_witness :
  toggle_like "2024-02-01T10:00:01" "u1" "p1"
    (fails_after 3 "Could not connect to the endpoint URL of DynamoDB" t0)
  = (inl (DatabaseError "toggle_like"), up t0)
  /\ (DatabaseError "toggle_like" = NotFoundError PostNotFound
      \/ DatabaseError "toggle_like" = DatabaseError "toggle_like"
      \/ (from_store (DatabaseError "toggle_like")
          /\ mentions_store (DatabaseError "toggle_like") = false)).
Proof.
  assert (Hrun : toggle_like "2024-02-01T10:00:01" "u1" "p1"
                   (fails_after 3
                      "Could not connect to the endpoint URL of DynamoDB" t0)
                 = (inl (DatabaseError "toggle_like"), up t0))
    by (vm_compute; reflexivity).
  split; [exact Hrun|].
  exact (proj1 exceptions_raised _ _ _ _ _ _ Hrun).
Defined.

(** ** Trimming *)

Lemma lstrip_first (s : string) (c : ascii) :
  first_char (lstrip s) = Some c -> isspace c = false.
Proof.
  induction s as [|d s IH]; simpl; [discriminate|].
  destruct (isspace d) eqn:Hd; [exact IH|].
  simpl. now intros [= <-].
Qed.

Lemma rstrip_cons (c : ascii) (s : string) :
  rstrip (String c s)
  = match rstrip s with
    | EmptyString => if isspace c then EmptyString else String c EmptyString
    | r => String c r
    end.
Proof. reflexivity. Qed.

Lemma rstrip_first (s : string) (c : ascii) :
  isspace c = false -> first_char (rstrip (String c s)) = Some c.
Proof.
  intros Hc. rewrite rstrip_cons, Hc. now destruct (rstrip s).
Qed.

Lemma rstrip_keeps_first (s : string) (c : ascii) :
  first_char (rstrip s) = Some c -> first_char s = Some c.
Proof.
  destruct s as [|d s]; [discriminate|].
  rewrite rstrip_cons. destruct (rstrip s); [destruct (isspace d)|];
    simpl; congruence.
Qed.

Lemma rstrip_last (s : string) (c : ascii) :
  last_char (rstrip s) = Some c -> isspace c = false.
Proof.
  induction s as [|d s IH]; [discriminate|].
  rewrite rstrip_cons. destruct (rstrip s) as [|e r].
  - destruct (isspace d) eqn:Hd; [discriminate|].
    simpl. now intros [= <-].
  - exact IH.
Qed.

Lemma rstrip_idem (s : string) : rstrip (rstrip s) = rstrip s.
Proof.
  induction s as [|d s IH]; [reflexivity|].
  rewrite rstrip_cons. destruct (rstrip s) as [|e r] eqn:Hr.
  - destruct (isspace d) eqn:Hd; [reflexivity|].
    rewrite rstrip_cons. simpl rstrip. now rewrite Hd.
  - rewrite rstrip_cons, IH. reflexivity.
Qed.

Lemma strip_trimmed (s : string) : trimmed (strip s).
Proof.
  split; intros c Hc.
  - apply (lstrip_first s). now apply rstrip_keeps_first.
  - now apply (rstrip_last (lstrip s)).
Qed.

Lemma strip_idem (s : string) : strip (strip s) = strip s.
Proof.
  unfold strip. destruct (rstrip (lstrip s)) as [|c r] eqn:Hr; [reflexivity|].
  assert (Hc : isspace c = false).
  { apply (lstrip_first s). apply rstrip_keeps_first. now rewrite Hr. }
  simpl lstrip. rewrite Hc, <- Hr. apply rstrip_idem.
Qed.

Lemma rstrip_length (s : string) :
  (String.length (rstrip s) <= String.length s)%nat.
Proof.
  induction s as [|d s IH]; [reflexivity|].
  rewrite rstrip_cons. destruct (rstrip s) as [|e r].
  - destruct (isspace d); simpl; lia.
  - simpl in *. lia.
Qed.

Lemma lstrip_length (s : string) :
  (String.length (lstrip s) <= String.length s)%nat.
Proof.
  induction s as [|d s IH]; [reflexivity|].
  simpl. destruct (isspace d); simpl; lia.
Qed.

(** X16. What a stored comment looks like. After a successful
    [add_comment], the content returned and the content stored under the
    new id are the same string: the input stripped; it is not empty, has
    at most 500 characters and no more than the input, begins and ends
    with a character that is not a space, and stripping it again changes
    nothing. *)
Theorem add_comment_stores_trimmed (t : Tables) (now u p c : string)
    (r : comment_result) (w' : World) :
  add_comment now u p (Some c) (up t) = (inr r, w') ->
  c_content (comment r) = Some (strip c)
  /\ (interactions (tables w') !! (p, c_interaction_id (comment r)))
       ≫= ii_content = Some (strip c)
  /\ strip c <> ""
  /\ len (strip c) <= 500
  /\ len (strip c) <= len c
  /\ trimmed (strip c)
  /\ strip (strip c) = strip c.
Proof.
  rewrite add_comment_up.
  destruct (String.eqb_spec (strip c) "") as [|Hs]; [discriminate|].
  destruct (len (strip c) >? 500) eqn:Hlen; [discriminate|].
  destruct (posts t !! p) as [item|]; [|discriminate].
  destruct (users t !! u) as [user|]; [|discriminate].
  intros [= <- <-]. simpl.
  split; [reflexivity|]. split.
  { rewrite lookup_insert_eq. simpl.
    now apply String.eqb_neq in Hs as ->. }
  split; [assumption|]. split; [lia|]. split.
  { unfold len, strip.
    pose proof (rstrip_length (lstrip c)). pose proof (lstrip_length c). lia. }
  split; [apply strip_trimmed|apply strip_idem].
Qed.

Lemma add_comment_stores_trimmed_witness :
  exists r w',
    add_comment "2024-02-01T10:00:01" "u1" "p1" (Some "  hello world  ")
      (up t0) = (inr r, w')
    /\ c_content (comment r) = Some "hello world".
Proof.
  assert (Hrun : exists r w',
             add_comment "2024-02-01T10:00:01" "u1" "p1"
               (Some "  hello world  ") (up t0) = (inr r, w')).
  { rewrite add_comment_up. eexists _, _. reflexivity. }
  destruct Hrun as (r & w' & Hrun). exists r, w'. split; [exact Hrun|].
  now rewrite (proj1 (add_comment_stores_trimmed t0 _ _ _ _ r w' Hrun)).
Defined.

(** ** A comment, from posting to deleting *)

Lemma partition_length_added (t : Tables) (p k : string)
    (it : InteractionItem) :
  interactions t !! (p, k) = None ->
  length (partition (with_interaction p k it t) p)
  = S (length (partition t p)).
Proof.
  intros Hfresh. now rewrite (partition_added t p k it Hfresh).
Qed.

(** X17. A comment that was just added is listed. After a successful
    [add_comment] under an id that was not in use, on a post with fewer
    items than the limit, [get_post_comments] returns a list that holds
    the comment with its id, trimmed content, clock reading and the
    author's [username] and [profile_image], and reports as
    [total_comments] the count that [add_comment] returned. *)
Theorem add_comment_then_listed (t : Tables) (now u p c : string)
    (limit : Z) (user : UserItem) (r : comment_result) (w' : World) :
  users t !! u = Some user ->
  interactions t !! (p, comment_id now u) = None ->
  Z.of_nat (length (partition t p)) < limit ->
  add_comment now u p (Some c) (up t) = (inr r, w') ->
  exists cr,
    get_post_comments p limit w' = (inr cr, w')
    /\ {| e_interaction_id := comment_id now u;
          e_user_id := u;
          e_username := ui_username user;
          e_profile_image := ui_profile_image user;
          e_content := Some (strip c);
          e_created_at := now |} ∈ comments cr
    /\ total_comments cr = comments_count r.
Proof.
  intros Hu Hfresh Hlen. rewrite add_comment_up.
  destruct (String.eqb (strip c) "") eqn:Hs; [discriminate|].
  destruct (len (strip c) >? 500); [discriminate|].
  destruct (posts t !! p) as [item|] eqn:Hp; [|discriminate].
  rewrite Hu. intros [= <- <-].
  set (it := Interaction.to_item (new_comment now u p c)).
  fold (comment_id now u).
  set (t1 := counted 0 1 p (with_interaction p (comment_id now u) it t)).
  assert (Hp1 : posts t1 !! p = Some (Table.add_counts 0 1 item))
    by now apply posts_counted.
  assert (Hlim : 1 <= limit) by lia.
  rewrite (get_post_comments_up p limit t1 _ Hp1 Hlim).
  eexists. split; [reflexivity|]. simpl. split; [|reflexivity].
  apply elem_of_sort_by, list_elem_of_omap.
  exists (Interaction.of_item p (comment_id now u, it)). split.
  - apply list_elem_of_fmap. exists (comment_id now u, it).
    split; [reflexivity|]. apply query_type_all.
    + change (partition t1 p)
        with (partition (with_interaction p (comment_id now u) it t) p).
      rewrite (partition_length_added _ _ _ _ Hfresh). lia.
    + simpl. apply lookup_insert_eq.
    + reflexivity.
  - unfold comment_entry_of. simpl. rewrite Hu. simpl.
    unfold it, Interaction.to_item, new_comment. simpl. now rewrite Hs.
Qed.

Lemma add_comment_then_listed_witness :
  exists r w' cr,
    add_comment "2024-02-01T10:00:01" "u2" "p1" (Some " hi ") (up t0)
    = (inr r, w')
    /\ get_post_comments "p1" 50 w' = (inr cr, w')
    /\ total_comments cr = comments_count r.
Proof.
  assert (H1 : users t0 !! "u2" = Some bob) by by_eval.
  assert (H2 : interactions t0 !! ("p1", comment_id "2024-02-01T10:00:01" "u2")
               = None) by by_eval.
  assert (H3 : Z.of_nat (length (partition t0 "p1")) < 50) by by_eval.
  assert (Hrun : exists r w',
             add_comment "2024-02-01T10:00:01" "u2" "p1" (Some " hi ")
               (up t0) = (inr r, w')).
  { rewrite add_comment_up. eexists _, _. reflexivity. }
  destruct Hrun as (r & w' & Hrun).
  destruct (add_comment_then_listed t0 "2024-02-01T10:00:01" "u2" "p1" " hi "
              50 bob r w' H1 H2 H3 Hrun) as (cr & Hlist & _ & Htotal).
  exists r, w', cr. auto.
Defined.

(** X18. Post a comment, then delete it: after a successful
    [add_comment] under an id that was not in use, on a post that stores
    both counters and had fewer than 50 items, [delete_comment] by the
    same user with the returned id succeeds, returns the count from
    before the comment, and leaves the three tables exactly as they were
    before the comment was added. *)
Theorem add_then_delete_comment (t : Tables) (now u p c : string)
    (item : PostItem) (l n : Z) (r : comment_result) (w' : World) :
  posts t !! p = Some item ->
  pi_likes_count item = Some l ->
  pi_comments_count item = Some n ->
  interactions t !! (p, comment_id now u) = None ->
  (length (partition t p) < 50)%nat ->
  add_comment now u p (Some c) (up t) = (inr r, w') ->
  delete_comment u p (c_interaction_id (comment r)) w'
  = (inr {| delete_message := CommentDeleted; remaining_comments := n |},
     up t).
Proof.
  intros Hp Hl Hn Hfresh Hlen. rewrite add_comment_up.
  destruct (String.eqb (strip c) "") eqn:Hs; [discriminate|].
  destruct (len (strip c) >? 500); [discriminate|].
  rewrite Hp.
  destruct (users t !! u) as [user|]; [|discriminate].
  intros [= <- <-]. simpl c_interaction_id.
  set (it := Interaction.to_item (new_comment now u p c)).
  fold (comment_id now u).
  set (t1 := counted 0 1 p (with_interaction p (comment_id now u) it t)).
  assert (Hp1 : posts t1 !! p = Some (Table.add_counts 0 1 item))
    by now apply posts_counted.
  assert (Hin : (comment_id now u, it) ∈ read_comments t1 p).
  { apply read_comments_small.
    - change (partition t1 p)
        with (partition (with_interaction p (comment_id now u) it t) p).
      rewrite (partition_length_added _ _ _ _ Hfresh). lia.
    - simpl. apply lookup_insert_eq.
    - reflexivity. }
  rewrite delete_comment_up, (find_read_comment _ _ _ it Hin).
  change (ii_user_id (comment_id now u, it).2) with u.
  rewrite String.eqb_refl, Hp1. simpl negb. cbv iota.
  f_equal.
  - f_equal. f_equal. simpl. rewrite Hn. simpl. lia.
  - unfold up. f_equal. subst t1.
    destruct t as [us ps ints]. unfold counted, without_interaction,
      with_interaction. simpl in *. f_equal.
    + apply map_eq. intros q. destruct (decide (q = p)) as [->|Hq].
      * rewrite !lookup_alter_eq, Hp. simpl. f_equal.
        now apply (add_counts_back 0 1 item l n).
      * now rewrite !lookup_alter_ne by congruence.
    + now apply delete_insert_id.
Qed.

Lemma add_then_delete_comment_witness :
  exists r w',
    add_comment "2024-02-01T10:00:09" "u2" "p1" (Some "bye") (up t_commented)
    = (inr r, w')
    /\ delete_comment "u2" "p1" (c_interaction_id (comment r)) w'
       = (inr {| delete_message := CommentDeleted; remaining_comments := 1 |},
          up t_commented).
Proof.
  assert (H1 : posts t_commented !! "p1" = Some (Table.add_counts 0 1 photo))
    by by_eval.
  assert (H2 : interactions t_commented
               !! ("p1", comment_id "2024-02-01T10:00:09" "u2") = None)
    by by_eval.
  assert (H3 : (length (partition t_commented "p1") < 50)%nat) by by_calc.
  assert (Hrun : exists r w',
             add_comment "2024-02-01T10:00:09" "u2" "p1" (Some "bye")
               (up t_commented) = (inr r, w')).
  { rewrite add_comment_up. eexists _, _. reflexivity. }
  destruct Hrun as (r & w' & Hrun). exists r, w'. split; [exact Hrun|].
  exact (add_then_delete_comment t_commented _ _ _ "bye" _ 0 1 r w'
           H1 eq_refl eq_refl H2 H3 Hrun).
Defined.

(** ** Reads *)

Lemma read_only_ret {A} (a : A) : read_only (ret a).
Proof. now intros w r w' [= _ <-]. Qed.

Lemma read_only_raise {A} (e : exn) : read_only (@raise A e).
Proof. now intros w r w' [= _ <-]. Qed.

Lemma read_only_bind {A B} (m : M A) (k : A -> M B) :
  read_only m -> (forall a, read_only (k a)) -> read_only (bind m k).
Proof.
  intros Hm Hk w r w'. unfold bind.
  destruct (m w) as [[e|a] w1] eqn:Hrun.
  - intros [= _ <-]. now apply (Hm _ _ _ Hrun).
  - intros Hrun'. rewrite (Hk _ _ _ _ Hrun'). now apply (Hm _ _ _ Hrun).
Qed.

Lemma read_only_store_call {A} (f : Tables -> (exn + A) * Tables) :
  (forall t, snd (f t) = t) -> read_only (store_call f).
Proof.
  intros Hf [t pl] r w'. unfold store_call. simpl.
  destruct pl as [|[text|] rest]; [| now intros [= _ <-] |];
    specialize (Hf t); destruct (f t) as [r0 t']; simpl in Hf; subst t';
    now intros [= _ <-].
Qed.

Lemma read_only_try {A} (m : M A) (h : exn -> M A) :
  read_only m -> (forall e, read_only (h e)) -> read_only (try_except m h).
Proof.
  intros Hm Hh w r w'. unfold try_except.
  destruct (m w) as [[e|a] w1] eqn:Hrun.
  - intros Hrun'. rewrite (Hh _ _ _ _ Hrun'). now apply (Hm _ _ _ Hrun).
  - intros [= _ <-]. now apply (Hm _ _ _ Hrun).
Qed.

Lemma read_only_monitor {A} (op : string) (m : M A) :
  read_only m -> read_only (monitor_database_operation op m).
Proof.
  intros Hm. apply read_only_try; [assumption|].
  intros e. destruct (mentions_store e); apply read_only_raise.
Qed.

(** Breaks a read down into its calls to the store. *)
Ltac reads :=
  repeat first
    [ apply read_only_ret
    | apply read_only_raise
    | apply read_only_store_call; intros ?; reflexivity
    | apply read_only_monitor
    | apply read_only_bind; [|intros ?]
    | match goal with
      | |- read_only (match ?x with _ => _ end) => destruct x
      end ].

Lemma read_only_Post_get_by_id (p : string) : read_only (Post.get_by_id p).
Proof. unfold Post.get_by_id, get_table, Table.get_post. reads. Qed.

Lemma read_only_User_get_by_id (u : string) : read_only (User.get_by_id u).
Proof. unfold User.get_by_id, get_table, Table.get_user. reads. Qed.

Lemma read_only_get_user_like (p u : string) :
  read_only (Interaction.get_user_like p u).
Proof. unfold Interaction.get_user_like, get_table, Table.query. reads. Qed.

Lemma read_only_get_post_interactions (p : string) (ty : option string)
    (limit : Z) :
  read_only (Interaction.get_post_interactions p ty limit).
Proof.
  unfold Interaction.get_post_interactions, get_table, Table.query. reads.
Qed.

Lemma read_only_likes_with_users (l : list Interaction.t) :
  read_only (likes_with_users l).
Proof.
  induction l as [|like l IH]; simpl; [apply read_only_ret|].
  apply read_only_bind; [apply read_only_User_get_by_id|]. intros user.
  apply read_only_bind; [exact IH|]. intros tail. apply read_only_ret.
Qed.

Lemma read_only_comments_with_users (l : list Interaction.t) :
  read_only (comments_with_users l).
Proof.
  induction l as [|c l IH]; simpl; [apply read_only_ret|].
  apply read_only_bind; [apply read_only_User_get_by_id|]. intros user.
  apply read_only_bind; [exact IH|]. intros tail. apply read_only_ret.
Qed.

Lemma query_items_length (t : Tables) (p : string) (pre ty : option string)
    (limit : Z) :
  (length (Table.query_items t p pre limit ty) <= Z.to_nat limit)%nat.
Proof.
  unfold Table.query_items.
  assert (Hf : forall (f : string * InteractionItem -> bool) l,
             (length (List.filter f l) <= length l)%nat).
  { intros f l. induction l as [|x l IH]; simpl; [lia|].
    destruct (f x); simpl; lia. }
  destruct ty as [ty|]; [etransitivity; [apply Hf|]|];
    rewrite length_take; lia.
Qed.

Lemma get_post_interactions_length (p : string) (ty : option string)
    (limit : Z) (w w' : World) (l : list Interaction.t) :
  Interaction.get_post_interactions p ty limit w = (inr l, w') ->
  (length l <= Z.to_nat limit)%nat /\ 1 <= limit.
Proof.
  unfold Interaction.get_post_interactions, bind, get_table, Table.query.
  destruct (store_call _ w) as [[e|[]] w1]; [discriminate|].
  destruct (limit <? 1) eqn:Hlim; [discriminate|].
  destruct w1 as [t pl]. unfold store_call. simpl.
  destruct pl as [|[text|] rest]; try discriminate;
    intros [= <- _]; (split; [|lia]);
    rewrite length_map; apply query_items_length.
Qed.

Lemma likes_with_users_length (l : list Interaction.t) (w w' : World)
    (es : list like_entry) :
  likes_with_users l w = (inr es, w') -> (length es <= length l)%nat.
Proof.
  revert w w' es. induction l as [|like l IH]; intros w w' es; simpl.
  - intros [= <- _]. reflexivity.
  - unfold bind. destruct (User.get_by_id _ w) as [[e|user] w1];
      [discriminate|].
    destruct (likes_with_users l w1) as [[e|tail] w2] eqn:Hrun;
      [discriminate|].
    specialize (IH _ _ _ Hrun). destruct user; intros [= <- _]; simpl; lia.
Qed.

Lemma comments_with_users_length (l : list Interaction.t) (w w' : World)
    (es : list comment_entry) :
  comments_with_users l w = (inr es, w') -> (length es <= length l)%nat.
Proof.
  revert w w' es. induction l as [|c l IH]; intros w w' es; simpl.
  - intros [= <- _]. reflexivity.
  - unfold bind. destruct (User.get_by_id _ w) as [[e|user] w1];
      [discriminate|].
    destruct (comments_with_users l w1) as [[e|tail] w2] eqn:Hrun;
      [discriminate|].
    specialize (IH _ _ _ Hrun). destruct user; intros [= <- _]; simpl; lia.
Qed.

(** X19. The three reads never write: whatever the store holds and
    answers, and whether they return or raise, [get_post_likes],
    [get_post_comments] and [get_user_like_status] leave the three
    tables as they were. *)
Theorem reads_never_write :
  (forall p limit, read_only (get_post_likes p limit))
  /\ (forall p limit, read_only (get_post_comments p limit))
  /\ (forall u p, read_only (get_user_like_status u p)).
Proof.
  split; [|split].
  - intros p limit. unfold get_post_likes.
    apply read_only_bind; [apply read_only_Post_get_by_id|].
    intros [post|]; [|apply read_only_raise].
    apply read_only_bind; [apply read_only_get_post_interactions|].
    intros l. apply read_only_bind; [apply read_only_likes_with_users|].
    intros es. apply read_only_ret.
  - intros p limit. unfold get_post_comments.
    apply read_only_bind; [apply read_only_Post_get_by_id|].
    intros [post|]; [|apply read_only_raise].
    apply read_only_bind; [apply read_only_get_post_interactions|].
    intros l. apply read_only_bind; [apply read_only_comments_with_users|].
    intros es. apply read_only_ret.
  - intros u p. unfold get_user_like_status.
    apply read_only_try.
    + apply read_only_bind; [apply read_only_get_user_like|].
      intros like. apply read_only_ret.
    + intros e. apply read_only_ret.
Qed.

Lemma reads_never_write_witness :
  tables (snd (get_post_comments "p1" 50 (throttled t_commented)))
  = t_commented.
Proof.
  apply (proj1 (proj2 reads_never_write) "p1" 50 (throttled t_commented)
           (fst (get_post_comments "p1" 50 (throttled t_commented)))).
  apply surjective_pairing.
Defined.

(** X20. The two listings are bounded by the limit: whenever
    [get_post_likes] or [get_post_comments] returns, the list has at
    most [limit] entries and the number reported beside it
    ([likes_count], [comments_count] of the answer) is its length. *)
Theorem listings_bounded :
  (forall p limit w w' r,
     get_post_likes p limit w = (inr r, w') ->
     likes_shown r = Z.of_nat (length (likes r))
     /\ likes_shown r <= limit)
  /\ (forall p limit w w' r,
        get_post_comments p limit w = (inr r, w') ->
        comments_shown r = Z.of_nat (length (comments r))
        /\ comments_shown r <= limit).
Proof.
  split.
  - intros p limit w w' r. unfold get_post_likes, bind, raise, ret.
    destruct (Post.get_by_id p w) as [[e|[post|]] w1]; try discriminate.
    destruct (Interaction.get_post_interactions _ _ _ w1) as [[e|l] w2] eqn:Hl;
      [discriminate|].
    destruct (likes_with_users l w2) as [[e|es] w3] eqn:Hes; [discriminate|].
    intros [= <- _]. simpl. split; [reflexivity|].
    apply get_post_interactions_length in Hl as [Hl Hlim].
    apply likes_with_users_length in Hes. lia.
  - intros p limit w w' r. unfold get_post_comments, bind, raise, ret.
    destruct (Post.get_by_id p w) as [[e|[post|]] w1]; try discriminate.
    destruct (Interaction.get_post_interactions _ _ _ w1) as [[e|l] w2] eqn:Hl;
      [discriminate|].
    destruct (comments_with_users l w2) as [[e|es] w3] eqn:Hes;
      [discriminate|].
    intros [= <- _]. simpl. rewrite length_sort_by.
    split; [reflexivity|].
    apply get_post_interactions_length in Hl as [Hl Hlim].
    apply comments_with_users_length in Hes. lia.
Qed.

Lemma listings_bounded_witness :
  exists r,
    get_post_comments "p1" 50 (up crowded) = (inr r, up crowded)
    /\ comments_shown r <= 50.
Proof.
  assert (Hrun : exists r,
             get_post_comments "p1" 50 (up crowded) = (inr r, up crowded)).
  { rewrite (get_post_comments_up "p1" 50 crowded
               (Table.add_counts 0 51 photo)) by by_calc.
    eexists. reflexivity. }
  destruct Hrun as [r Hrun]. exists r. split; [exact Hrun|].
  exact (proj2 (proj2 listings_bounded "p1" 50 _ _ r Hrun)).
Defined.

(** ** post_service.py *)



Lemma get_post_stats_up (p : string) (t : Tables) :
  get_post_stats p (up t)
  = match posts t !! p with
    | Some item =>
        (inr {| stats_likes_count := default 0 (pi_likes_count item);
                stats_comments_count := default 0 (pi_comments_count item) |},
         up t)
    | None => (inl (ValidationError PostNotFound), up t)
    end.
Proof.
  unfold get_post_stats, bind. rewrite Post_get_by_id_up.
  now destruct (posts t !! p).
Qed.

(** X22. The counts the operations return are the counts
    [get_post_stats] reports next: the [likes_count] of a successful
    [toggle_like], the [comments_count] of a successful [add_comment],
    and, for an existing post, the [comments_count] of a successful
    [delete_comment]. *)
Theorem stats_follow_operations :
  (forall t now u p res w',
     toggle_like now u p (up t) = (inr res, w') ->
     exists st, get_post_stats p w' = (inr st, w')
                /\ stats_likes_count st = likes_count res)
  /\ (forall t now u p c r w',
        add_comment now u p (Some c) (up t) = (inr r, w') ->
        exists st, get_post_stats p w' = (inr st, w')
                   /\ stats_comments_count st = comments_count r)
  /\ (forall t u p k r w',
        is_Some (posts t !! p) ->
        delete_comment u p k (up t) = (inr r, w') ->
        exists st, get_post_stats p w' = (inr st, w')
                   /\ stats_comments_count st = remaining_comments r).
Proof.
  split; [|split].
  - intros t now u p res w'. rewrite toggle_like_up.
    destruct (posts t !! p) as [item|] eqn:Hp; [|discriminate].
    destruct (head (likes_of t p u)); intros [= <- <-];
      rewrite get_post_stats_up; simpl; rewrite lookup_alter_eq, Hp;
      simpl; eauto.
  - intros t now u p c r w'. rewrite add_comment_up.
    destruct (String.eqb (strip c) ""); [discriminate|].
    destruct (len (strip c) >? 500); [discriminate|].
    destruct (posts t !! p) as [item|] eqn:Hp; [|discriminate].
    destruct (users t !! u); [|discriminate].
    intros [= <- <-]. rewrite get_post_stats_up. simpl.
    rewrite lookup_alter_eq, Hp. simpl. eauto.
  - intros t u p k r w' [item Hp]. rewrite delete_comment_up.
    destruct (List.find _ (read_comments t p)); [|discriminate].
    destruct (negb _); [discriminate|]. rewrite Hp.
    intros [= <- <-]. rewrite get_post_stats_up. simpl.
    rewrite lookup_alter_eq, Hp. simpl. eauto.
Qed.

Lemma stats_follow_operations_witness :
  exists res w' st,
    toggle_like "2024-02-01T10:00:01" "u1" "p1" (up t_drifted)
    = (inr res, w')
    /\ get_post_stats "p1" w' = (inr st, w')
    /\ stats_likes_count st = likes_count res.
Proof.
  assert (Hrun : exists res w',
             toggle_like "2024-02-01T10:00:01" "u1" "p1" (up t_drifted)
             = (inr res, w')).
  { rewrite toggle_like_up.
    replace (posts t_drifted !! "p1") with (Some (Table.add_counts 5 0 photo))
      by by_eval.
    destruct (head (likes_of t_drifted "p1" "u1")); eexists _, _; reflexivity. }
  destruct Hrun as (res & w' & Hrun).
  destruct (proj1 stats_follow_operations t_drifted _ _ _ res w' Hrun)
    as (st & Hst & Heq).
  exists res, w', st. auto.
Defined.

(** ** Deleting a post *)

Lemma Post_delete_up (post : Post.t) (t : Tables) :
  Post.delete post (up t)
  = (inr true, up (without_post (Post.post_id post) t)).
Proof.
  unfold Post.delete, bind, get_table, Table.delete_post.
  now repeat (rewrite store_call_up; simpl).
Qed.

Lemma delete_all_up (l : list Interaction.t) (t : Tables) :
  delete_all l (up t) = (inr tt, up (without_all l t)).
Proof.
  revert t. induction l as [|i l IH]; intros t; [reflexivity|].
  simpl delete_all. unfold bind. rewrite Interaction_delete_up.
  now rewrite IH.
Qed.

Lemma users_without_all (l : list Interaction.t) (t : Tables) :
  users (without_all l t) = users t /\ posts (without_all l t) = posts t.
Proof.
  revert t. induction l as [|i l IH]; intros t; [easy|].
  simpl. now destruct (IH (without_interaction (Interaction.post_id i)
                             (Interaction.interaction_id i) t)).
Qed.

Lemma fold_delete_None (ks : list (string * string))
    (m : gmap (string * string) InteractionItem) (key : string * string) :
  m !! key = None ->
  fold_left (fun m k => delete k m) ks m !! key = None.
Proof.
  revert m. induction ks as [|k ks IH]; intros m Hn; [exact Hn|].
  simpl. apply IH. destruct (decide (k = key)) as [->|Hne].
  - apply lookup_delete_eq.
  - now rewrite lookup_delete_ne.
Qed.

Lemma fold_delete_in (ks : list (string * string))
    (m : gmap (string * string) InteractionItem) (key : string * string) :
  key ∈ ks -> fold_left (fun m k => delete k m) ks m !! key = None.
Proof.
  revert m. induction ks as [|k ks IH]; intros m Hin; [inversion Hin|].
  simpl. apply elem_of_cons in Hin as [->|Hin]; [|now apply IH].
  apply fold_delete_None, lookup_delete_eq.
Qed.

Lemma fold_delete_out (ks : list (string * string))
    (m : gmap (string * string) InteractionItem) (key : string * string) :
  key ∉ ks -> fold_left (fun m k => delete k m) ks m !! key = m !! key.
Proof.
  revert m. induction ks as [|k ks IH]; intros m Hout; [reflexivity|].
  apply not_elem_of_cons in Hout as [Hne Hout].
  simpl. rewrite (IH _ Hout). now apply lookup_delete_ne.
Qed.

Lemma interactions_without_all (l : list Interaction.t) (t : Tables) :
  interactions (without_all l t)
  = fold_left (fun m k => delete k m)
      (map (fun i => (Interaction.post_id i, Interaction.interaction_id i)) l)
      (interactions t).
Proof.
  revert t. induction l as [|i l IH]; intros t; [reflexivity|].
  simpl. now rewrite IH.
Qed.

Lemma lookup_without_all_in (l : list Interaction.t) (t : Tables)
    (key : string * string) :
  key ∈ map (fun i => (Interaction.post_id i, Interaction.interaction_id i)) l
  -> interactions (without_all l t) !! key = None.
Proof. rewrite interactions_without_all. apply fold_delete_in. Qed.

Lemma lookup_without_all_out (l : list Interaction.t) (t : Tables)
    (key : string * string) :
  key ∉ map (fun i => (Interaction.post_id i, Interaction.interaction_id i)) l
  -> interactions (without_all l t) !! key = interactions t !! key.
Proof. rewrite interactions_without_all. apply fold_delete_out. Qed.

Lemma read_items_take (t : Tables) (p : string) :
  read_items t p = take 50 (partition t p).
Proof. reflexivity. Qed.

Lemma read_items_keys (t : Tables) (p q k : string) :
  (q, k) ∈ map (fun i => (Interaction.post_id i, Interaction.interaction_id i))
             (map (Interaction.of_item p) (read_items t p))
  <-> q = p /\ exists it, (k, it) ∈ take 50 (partition t p).
Proof.
  rewrite read_items_take. split.
  - intros Hin. apply list_elem_of_fmap in Hin as (i & [= -> ->] & Hin).
    apply list_elem_of_fmap in Hin as ([k' it] & -> & Hin).
    split; [reflexivity|]. simpl. eauto.
  - intros [-> [it Hin]]. apply list_elem_of_fmap.
    exists (Interaction.of_item p (k, it)). split; [reflexivity|].
    apply list_elem_of_fmap. eauto.
Qed.

(** What [delete_post] does on a store that serves every call. *)
Lemma delete_post_up (p u : string) (t : Tables) :
  p <> "" -> u <> "" ->
  delete_post p u (up t)
  = match posts t !! p with
    | None => (inl (Raised (ValidationError PostNotFound)), up t)
    | Some item =>
        if negb (String.eqb (pi_user_id item) u)
        then (inl NotOwner, up t)
        else (inr true,
              up (without_post p
                    (without_all
                       (map (Interaction.of_item p) (read_items t p)) t)))
    end.
Proof.
  intros Hp Hu. unfold delete_post.
  apply String.eqb_neq in Hp as ->. apply String.eqb_neq in Hu as ->.
  rewrite Post_get_by_id_up.
  destruct (posts t !! p) as [item|]; [|reflexivity]. simpl.
  destruct (negb _); [reflexivity|].
  unfold bind. rewrite get_post_interactions_up.
  change (50 <? 1) with false. cbv iota.
  fold (read_items t p). rewrite delete_all_up, Post_delete_up.
  reflexivity.
Qed.

(** X23. What [delete_post] refuses: an empty post id or user id before
    any call to the store, in every world; a post that does not exist;
    and a caller who is not the owner of the post. In each case nothing
    is deleted. *)
Theorem delete_post_refuses :
  (forall u w, delete_post "" u w = (inl PostIdRequired, w))
  /\ (forall p w, p <> "" -> delete_post p "" w = (inl UserIdRequired, w))
  /\ (forall p u t, p <> "" -> u <> "" -> posts t !! p = None ->
        delete_post p u (up t)
        = (inl (Raised (ValidationError PostNotFound)), up t))
  /\ (forall p u t item, p <> "" -> u <> "" ->
        posts t !! p = Some item -> pi_user_id item <> u ->
        delete_post p u (up t) = (inl NotOwner, up t)).
Proof.
  split; [reflexivity|]. split.
  { intros p w Hp. unfold delete_post.
    now apply String.eqb_neq in Hp as ->. }
  split.
  - intros p u t Hp Hu Hnone. now rewrite delete_post_up, Hnone.
  - intros p u t item Hp Hu Hsome Hne. rewrite delete_post_up, Hsome by easy.
    now apply String.eqb_neq in Hne as ->.
Qed.

Lemma delete_post_refuses_witness :
  delete_post "p1" "u2" (up t_commented) = (inl NotOwner, up t_commented).
Proof.
  apply (proj2 (proj2 (proj2 delete_post_refuses)) "p1" "u2" t_commented
           (Table.add_counts 0 1 photo)); by_eval.
Defined.

(** X24. What the owner's [delete_post] deletes. The post item goes, the
    Users table and the items of other posts stay, and of the items of
    the post exactly those past the first 50 in id order are left
    behind; a post with at most 50 items leaves none. *)
Theorem delete_post_by_owner (p u : string) (t : Tables) (item : PostItem) :
  p <> "" -> u <> "" ->
  posts t !! p = Some item ->
  pi_user_id item = u ->
  exists t',
    delete_post p u (up t) = (inr true, up t')
    /\ users t' = users t
    /\ posts t' = delete p (posts t)
    /\ (forall q k, q <> p ->
          interactions t' !! (q, k) = interactions t !! (q, k))
    /\ (forall k it,
          interactions t' !! (p, k) = Some it
          <-> (k, it) ∈ drop 50 (partition t p))
    /\ ((length (partition t p) <= 50)%nat ->
        forall k, interactions t' !! (p, k) = None).
Proof.
  intros Hp Hu Hsome Howner.
  rewrite delete_post_up, Hsome by assumption.
  apply String.eqb_eq in Howner as ->. simpl negb. cbv iota.
  set (l := map (Interaction.of_item p) (read_items t p)).
  eexists. split; [reflexivity|].
  destruct (users_without_all l t) as [Hus Hps].
  split; [exact Hus|]. split; [simpl; now rewrite Hps|].
  assert (Hother : forall q k, q <> p ->
            interactions (without_all l t) !! (q, k)
            = interactions t !! (q, k)).
  { intros q k Hq. apply lookup_without_all_out. unfold l.
    rewrite read_items_keys. intros [? _]. contradiction. }
  assert (Hleft : forall k it,
            interactions (without_all l t) !! (p, k) = Some it
            <-> (k, it) ∈ drop 50 (partition t p)).
  { intros k it.
    pose proof (NoDup_partition t p) as Hnd.
    rewrite <- (take_drop 50 (partition t p)) in Hnd.
    apply NoDup_app in Hnd as (_ & Hdisj & _).
    destruct (decide ((p, k) ∈ map (fun i => (Interaction.post_id i,
                                               Interaction.interaction_id i)) l))
      as [Hin|Hout].
    - rewrite (lookup_without_all_in _ _ _ Hin).
      apply read_items_keys in Hin as [_ [it' Hin]].
      split; [discriminate|]. intros Hdrop. exfalso.
      assert (it' = it) as ->.
      { apply (subseteq_take 50), elem_of_partition in Hin.
        apply (subseteq_drop 50), elem_of_partition in Hdrop. congruence. }
      exact (Hdisj _ Hin Hdrop).
    - rewrite (lookup_without_all_out _ _ _ Hout).
      rewrite <- elem_of_partition.
      rewrite <- (take_drop 50 (partition t p)) at 1.
      rewrite elem_of_app. split.
      + intros [Htake|Hdrop]; [|assumption].
        destruct Hout. apply read_items_keys. eauto.
      + auto. }
  split; [exact Hother|]. split; [exact Hleft|].
  intros Hlen k. change (interactions (without_all l t) !! (p, k) = None).
  destruct (interactions (without_all l t) !! (p, k)) as [it|] eqn:Hl;
    [|reflexivity].
  apply Hleft in Hl. rewrite drop_ge in Hl by assumption.
  inversion Hl.
Qed.

Lemma delete_post_by_owner_witness :
  exists t',
    delete_post "p1" "u1" (up t_commented) = (inr true, up t')
    /\ posts t' !! "p1" = None
    /\ interactions t' !! ("p1", comment_id "2024-02-01T10:00:01" "u1") = None.
Proof.
  assert (H1 : "p1" <> "") by discriminate.
  assert (H2 : "u1" <> "") by discriminate.
  assert (H3 : posts t_commented !! "p1" = Some (Table.add_counts 0 1 photo))
    by by_eval.
  assert (H4 : (length (partition t_commented "p1") <= 50)%nat) by by_calc.
  destruct (delete_post_by_owner "p1" "u1" t_commented
              (Table.add_counts 0 1 photo) H1 H2 H3 eq_refl)
    as (t' & Hrun & _ & Hposts & _ & _ & Hnone).
  exists t'. split; [exact Hrun|]. split.
  - rewrite Hposts. apply lookup_delete_eq.
  - now apply Hnone.
Defined.

(** ** A post that is not there *)

(** X25. When [post_id] names no post, on a store that serves every
    call: the two listings raise "post not found", [get_post_stats]
    raises its [ValidationError], [validate_post_ownership] says
    [False], all without writing; [get_user_like_status] does not look
    at the Posts table at all, its answer depends on the Interactions
    table alone, so it can still say [True] for such a post. *)
Theorem missing_post_reads (t : Tables) (p u : string) (limit : Z) :
  posts t !! p = None ->
  get_post_likes p limit (up t) = (inl (NotFoundError PostNotFound), up t)
  /\ get_post_comments p limit (up t)
     = (inl (NotFoundError PostNotFound), up t)
  /\ get_post_stats p (up t) = (inl (ValidationError PostNotFound), up t)
  /\ validate_post_ownership p u (up t) = (inr false, up t)
  /\ (forall t2, interactions t2 = interactions t ->
        fst (get_user_like_status u p (up t2))
        = fst (get_user_like_status u p (up t))).
Proof.
  intros Hp. repeat split.
  - unfold get_post_likes, bind. now rewrite Post_get_by_id_up, Hp.
  - unfold get_post_comments, bind. now rewrite Post_get_by_id_up, Hp.
  - now rewrite get_post_stats_up, Hp.
  - unfold validate_post_ownership, try_except, bind.
    now rewrite Post_get_by_id_up, Hp.
  - intros t2 Heq. rewrite !get_user_like_status_up.
    unfold likes_of, partition. now rewrite Heq.
Qed.

Lemma missing_post_reads_witness :
  get_post_likes "p1" 50 (up t_orphan)
  = (inl (NotFoundError PostNotFound), up t_orphan)
  /\ validate_post_ownership "p1" "u1" (up t_orphan) = (inr false, up t_orphan).
Proof.
  assert (H : posts t_orphan !! "p1" = None) by by_eval.
  destruct (missing_post_reads t_orphan "p1" "u1" 50 H)
    as (Hlikes & _ & _ & Hown & _).
  split; assumption.
Defined.

(** ** Removing a like *)

(** X26. [Interaction.delete_like] answers whether there was a like to
    delete: it returns what [get_user_like_status] said just before;
    when that is [False] the tables are left as they were, and when it
    is [True] exactly one item goes, one whose id begins with
    [like#user_id#], and no counter is touched. *)
Theorem delete_like_answers (t : Tables) (p u : string) :
  exists b t',
    Interaction.delete_like p u (up t) = (inr b, up t')
    /\ fst (get_user_like_status u p (up t)) = inr b
    /\ users t' = users t /\ posts t' = posts t
    /\ (b = false -> t' = t)
    /\ (b = true ->
        exists k it,
          interactions t !! (p, k) = Some it
          /\ String.prefix (Interaction.like_prefix u) k = true
          /\ interactions t' = delete (p, k) (interactions t)).
Proof.
  rewrite delete_like_up, get_user_like_status_up.
  destruct (head (likes_of t p u)) as [[k it]|] eqn:Hh.
  - assert (Hin : (k, it) ∈ likes_of t p u).
    { destruct (likes_of t p u); [discriminate|]. injection Hh as ->. left. }
    apply elem_of_likes_of in Hin as [Hl Hpre].
    exists true. eexists. split; [reflexivity|]. split; [reflexivity|].
    split; [reflexivity|]. split; [reflexivity|]. split; [discriminate|].
    intros _. exists k, it. auto.
  - exists false, t. repeat split; try reflexivity. discriminate.
Qed.

Lemma delete_like_answers_witness :
  exists t',
    Interaction.delete_like "p1" "u2" (up t_drifted) = (inr true, up t')
    /\ posts t' = posts t_drifted
    /\ fst (get_user_like_status "u2" "p1" (up t_drifted)) = inr true.
Proof.
  destruct (delete_like_answers t_drifted "p1" "u2")
    as (b & t' & Hrun & Hstatus & _ & Hposts & _).
  assert (Hb : b = true).
  { rewrite get_user_like_status_up in Hstatus. vm_compute in Hstatus.
    now injection Hstatus as <-. }
  subst b. exists t'. split; [exact Hrun|]. split; [exact Hposts|].
  exact Hstatus.
Defined.
